(** * EasyBookmark: table-of-contents extraction and outline building

    A shallow embedding of the extraction core of the repository
    ([src/llm/toc_extractor.py], [src/pdf_processor/pdf_writer.py],
    [src/pdf_processor/pdf_reader.py]) together with the properties of
    its specification.

    Conventions of the embedding.
    - A Python [str] is a list of characters; the alphabet is the range
      U+0000..U+00FF (type [ascii], read as code points).  On that range
      [str.isspace] and the regular-expression class [\s] are the
      characters of [is_space], and [\d] is ['0'..'9'].
    - Python exceptions are values of [exn]; a function that may raise
      returns an [outcome].
    - Python sets and dicts used as maps are stdpp's [gset] and [gmap]. *)

From Stdlib Require Import ZArith Ascii String List Bool Lia Sorted.
From stdpp Require Import base gmap strings list.
Import ListNotations.

Local Open Scope Z_scope.

(** ** Text *)

Module Text.

Definition text := list ascii.

Definition str (s : string) : text := list_ascii_of_string s.

Definition code (c : ascii) : N := N_of_ascii c.

(** [str.isspace] on U+0000..U+00FF: TAB..CR, FS..US, SPACE, NEL, NBSP. *)
Definition is_space (c : ascii) : bool :=
  let n := code c in
  ((9 <=? n) && (n <=? 13) || (28 <=? n) && (n <=? 32)
   || (n =? 133) || (n =? 160))%N.

Definition is_digit (c : ascii) : bool :=
  let n := code c in ((48 <=? n) && (n <=? 57))%N.

Definition ascii_eqb (a b : ascii) : bool := (code a =? code b)%N.

Fixpoint text_eqb (a b : text) : bool :=
  match a, b with
  | [], [] => true
  | x :: a', y :: b' => ascii_eqb x y && text_eqb a' b'
  | _, _ => false
  end.

Fixpoint lstrip (s : text) : text :=
  match s with
  | c :: s' => if is_space c then lstrip s' else s
  | [] => []
  end.

Definition rstrip (s : text) : text := rev (lstrip (rev s)).

(** [s.strip()] *)
Definition strip (s : text) : text := rstrip (lstrip s).

(** [s.startswith(p)] *)
Fixpoint startswith (p s : text) : bool :=
  match p, s with
  | [], _ => true
  | a :: p', b :: s' => ascii_eqb a b && startswith p' s'
  | _ :: _, [] => false
  end.

Definition newline : ascii := ascii_of_N 10.

Definition dquote : ascii := ascii_of_N 34.

(** Literals of this development write ['] for the double quote and [|]
    for the line feed. *)
Definition lit (s : string) : text :=
  map (fun c => if ascii_eqb c "'" then dquote
                else if ascii_eqb c "|" then newline else c)
      (list_ascii_of_string s).

(** [s.split(sep)] for a one-character separator: never empty. *)
Fixpoint split_on (sep : ascii) (s : text) : list text :=
  match s with
  | [] => [[]]
  | c :: s' =>
      if ascii_eqb c sep then [] :: split_on sep s'
      else match split_on sep s' with
           | cur :: rest => (c :: cur) :: rest
           | [] => [[c]]
           end
  end.

(** [sep.join(parts)] *)
Fixpoint join (sep : text) (parts : list text) : text :=
  match parts with
  | [] => []
  | [p] => p
  | p :: rest => p ++ sep ++ join sep rest
  end.

(** [s.find(c)] for a one-character needle; [None] is Python's [-1]. *)
Fixpoint find (c : ascii) (s : text) : option nat :=
  match s with
  | [] => None
  | x :: s' => if ascii_eqb x c then Some 0%nat
               else option_map S (find c s')
  end.

(** [s.rfind(c)] *)
Fixpoint rfind (c : ascii) (s : text) : option nat :=
  match s with
  | [] => None
  | x :: s' => match rfind c s' with
               | Some i => Some (S i)
               | None => if ascii_eqb x c then Some 0%nat else None
               end
  end.

(** [s[i:j]] for [0 <= i], [0 <= j] *)
Definition slice (i j : nat) (s : text) : text :=
  firstn (j - i) (skipn i s).

Definition digit_val (c : ascii) : Z := Z.of_N (code c) - 48.

(** [sys.get_int_max_str_digits()]: [int()] refuses a string of more
    digits, leading zeros counted, with a [ValueError], which in the
    JSON decoder is no [JSONDecodeError]. The value is the default of
    CPython 3.11 and later. *)
Definition max_str_digits : nat := 4300.

(** [int(s)] on a run of at most [max_str_digits] decimal digits *)
Definition int_of_digits (s : text) : Z :=
  fold_left (fun acc c => 10 * acc + digit_val c) s 0.

(** [str(n)] for a non-negative [n], most significant digit first *)
Fixpoint digits_of_pos (fuel : nat) (n : Z) (acc : text) : text :=
  match fuel with
  | O => acc
  | S f =>
      let d := ascii_of_N (Z.to_N (48 + n mod 10)) in
      if n <? 10 then d :: acc else digits_of_pos f (n / 10) (d :: acc)
  end.

(** [str(n)] for an integer [n] *)
Definition str_of_int (n : Z) : text :=
  if n <? 0
  then "-"%char :: digits_of_pos (S (Z.to_nat (Z.log2 (- n)))) (- n) []
  else digits_of_pos (S (Z.to_nat (Z.log2 n))) n [].

End Text.
Export Text.

(** ** Regular expressions

    A backtracking matcher with the priorities of Python's [re]: a greedy
    repetition tries one more iteration first, a lazy one tries to stop
    first; groups record the text they matched last. *)

Module Re.

Inductive regex : Type :=
| Eps
| Chr (p : ascii -> bool)
| Seq (r1 r2 : regex)
| Star (greedy : bool) (r : regex)
| Group (n : nat) (r : regex)
| Eos.

Definition Plus (greedy : bool) (r : regex) : regex :=
  Seq r (Star greedy r).

Definition Lit (c : ascii) : regex := Chr (fun x => ascii_eqb x c).

Definition captures := list (nat * text).

Inductive res : Type :=
| Matched (rest : text) (caps : captures)
| NoMatch
| OutOfFuel.

Fixpoint group (n : nat) (caps : captures) : option text :=
  match caps with
  | [] => None
  | (m, t) :: caps' => if Nat.eqb m n then Some t else group n caps'
  end.

(** [$] without MULTILINE: at the end, or before a final newline. *)
Definition at_end (s : text) : bool :=
  match s with
  | [] => true
  | [c] => ascii_eqb c newline
  | _ => false
  end.

(** [run fuel r s caps k] matches [r] at the head of [s] and hands the
    rest of the input and the groups to the continuation [k]; when [k]
    fails the matcher backtracks into [r]. An iteration of a repetition
    has to consume a character (the repeated parts of the patterns below
    always do), and [fuel] bounds the iterations of one repetition: for
    an input [s], [S (length s)] is never used up ([run_decides]). *)
Fixpoint run (fuel : nat) : regex -> text -> captures ->
                             (text -> captures -> res) -> res :=
  fix go (r : regex) (s : text) (caps : captures)
         (k : text -> captures -> res) {struct r} : res :=
    match r with
    | Eps => k s caps
    | Chr p =>
        match s with
        | c :: s' => if p c then k s' caps else NoMatch
        | [] => NoMatch
        end
    | Seq a b => go a s caps (fun s' caps' => go b s' caps' k)
    | Group n a =>
        go a s caps (fun s' caps' =>
          k s' ((n, firstn (length s - length s') s) :: caps'))
    | Eos => if at_end s then k s caps else NoMatch
    | Star greedy a =>
        match fuel with
        | O => OutOfFuel
        | S f =>
            let again (_ : unit) :=
              go a s caps (fun s' caps' =>
                if (length s' <? length s)%nat
                then run f (Star greedy a) s' caps' k
                else NoMatch) in
            if greedy
            then match again tt with
                 | NoMatch => k s caps
                 | r => r
                 end
            else match k s caps with
                 | NoMatch => again tt
                 | r => r
                 end
        end
    end.

Definition accept (s : text) (caps : captures) : res := Matched s caps.

(** [re.compile(r).match(s)]: anchored at the start of [s]. *)
Definition re_match (r : regex) (s : text) : option (text * captures) :=
  match run (S (length s)) r s [] accept with
  | Matched rest caps => Some (rest, caps)
  | _ => None
  end.

(** [re.findall] for a pattern whose group 1 is the whole match and
    that matches no empty text: the non-overlapping matches, scanned
    left to right. *)
Fixpoint findall_from (fuel : nat) (r : regex) (s : text) : list captures :=
  match fuel with
  | O => []
  | S f =>
      match re_match r s with
      | Some (rest, caps) =>
          if (length rest <? length s)%nat
          then caps :: findall_from f r rest
          else caps :: match s with
                       | [] => []
                       | _ :: s' => findall_from f r s'
                       end
      | None =>
          match s with
          | [] => []
          | _ :: s' => findall_from f r s'
          end
      end
  end.

Definition findall (r : regex) (s : text) : list captures :=
  findall_from (S (length s)) r s.

(** The group [n] does not occur in [r]. *)
Fixpoint no_group (n : nat) (r : regex) : bool :=
  match r with
  | Seq a b => no_group n a && no_group n b
  | Star _ a => no_group n a
  | Group m a => negb (Nat.eqb m n) && no_group n a
  | Eps | Chr _ | Eos => true
  end.

(** A continuation that leaves group [n] at [t]. *)
Definition keeps (n : nat) (t : text) (k : text -> captures -> res) : Prop :=
  forall s caps rest caps',
    group n caps = Some t -> k s caps = Matched rest caps' ->
    group n caps' = Some t.

End Re.

(** ** Table-of-contents entries *)

(** A Python [int] object, or a [bool] (which Python accepts wherever an
    [int] is expected, and prints as [True]/[False]). *)
Inductive pyint : Type :=
| IInt (z : Z)
| IBool (b : bool).

Definition int_val (p : pyint) : Z :=
  match p with
  | IInt z => z
  | IBool true => 1
  | IBool false => 0
  end.

(** The dict [{'title': .., 'page': .., 'level': ..}] of a result list. *)
Record TocEntry : Type := mkEntry {
  title : text;
  page : pyint;
  level : Z
}.

(** The loops of the form
    [seen = set(); for item in xs: if key not in seen: seen.add(key); out.append(item)]. *)
Fixpoint dedup_by {A K : Type} `{Countable K} (key : A -> K)
    (seen : gset K) (xs : list A) : list A :=
  match xs with
  | [] => []
  | x :: xs' =>
      if decide (key x ∈ seen) then dedup_by key seen xs'
      else x :: dedup_by key ({[ key x ]} ∪ seen) xs'
  end.

(** [list.sort(key=...)]: the stable sort, here by insertion. *)
Fixpoint insert_by {A : Type} (key : A -> Z) (x : A) (xs : list A) : list A :=
  match xs with
  | [] => [x]
  | y :: xs' => if key x <=? key y then x :: y :: xs'
                else y :: insert_by key x xs'
  end.

Definition sort_by {A : Type} (key : A -> Z) (xs : list A) : list A :=
  fold_right (insert_by key) [] xs.

(** ** Pattern fallback extractor *)

Module Simple.
Import Re.

Definition any_char (c : ascii) : bool := negb (ascii_eqb c newline).

(** The pattern [^ (\s* ) ([0-9]+ (?:\.[0-9]+)* ) \s+ (.+?) \s+ (\d+) $],
    written here with blanks between its parts: the indentation group,
    then the rest. *)
Definition after_indent : regex :=
  Seq (Group 2 (Seq (Plus true (Chr is_digit))
                    (Star true (Seq (Lit ".") (Plus true (Chr is_digit))))))
 (Seq (Plus true (Chr is_space))
 (Seq (Group 3 (Plus false (Chr any_char)))
 (Seq (Plus true (Chr is_space))
 (Seq (Group 4 (Plus true (Chr is_digit)))
      Eos)))).

Definition toc_line_pattern : regex :=
  Seq (Group 1 (Star true (Chr is_space))) after_indent.

Definition grp (n : nat) (caps : captures) : text :=
  default [] (group n caps).

(** The level computed for one matched line. *)
Definition line_level (indent numbering : text) : Z :=
  let level := Z.of_nat (length (split_on "." numbering)) in
  let level :=
    if negb (text_eqb indent []) && (level =? 1)
    then level + Z.of_nat (length indent) / 4
    else level in
  Z.max 1 level.

(** The body of the [for line in lines] loop: the entry appended for
    [line], if any. *)
Definition parse_line (page_offset : Z) (line : text) : option TocEntry :=
  let line := strip line in
  if text_eqb line [] then None
  else match re_match toc_line_pattern line with
       | Some (_, caps) =>
           let indent := grp 1 caps in
           let numbering := grp 2 caps in
           let title := grp 3 caps in
           let page_str := grp 4 caps in
           (* [try: page = int(page_str) ... except ValueError: continue] *)
           if (max_str_digits <? length page_str)%nat then None
           else
             Some {| title := strip title;
                     page := IInt (int_of_digits page_str + page_offset);
                     level := line_level indent numbering |}
       | None => None
       end.

Definition entry_key (e : TocEntry) : text * Z := (title e, int_val (page e)).

Definition _extract_toc_with_simple_parsing (toc_text : text)
    (page_offset : Z) : list TocEntry :=
  let lines := split_on newline toc_text in
  let toc_data := omap (parse_line page_offset) lines in
  match toc_data with
  | [] => []
  | _ :: _ =>
      let unique_toc := dedup_by entry_key ∅ toc_data in
      sort_by (fun x => int_val (page x)) unique_toc
  end.

End Simple.

(** ** Python values and exceptions *)

Inductive exn : Type :=
| JSONDecodeError
| ValueError
| TypeError
| KeyError
| OverflowError
| IndexError
| LLMError.

(** The result of a call: a value, a raised exception, or [Beyond] when
    the input leaves the fragment this development models (a string
    with a character above U+00FF, a parse deeper than the fuel). No
    [except] clause handles [Beyond]. *)
Inductive outcome (A : Type) : Type :=
| Ret (a : A)
| Raise (e : exn)
| Beyond.
Arguments Ret {A} a.
Arguments Raise {A} e.
Arguments Beyond {A}.

Global Instance outcome_ret : MRet outcome := fun A a => Ret a.

Global Instance outcome_bind : MBind outcome := fun A B f m =>
  match m with
  | Ret a => f a
  | Raise e => Raise e
  | Beyond => Beyond
  end.

(** A [float] object, by how it was obtained: from a literal, or by adding
    an [int] to a float. Its numeric value is left to [PyBuiltins]. *)
Inductive pyfloat : Type :=
| FLit (lit : text)
| FAddInt (f : pyfloat) (z : Z).

(** The values [json.loads] produces, and those computed from them. A
    dict is its list of items in insertion order, with distinct keys. *)
#[warnings="-register-all"]
Inductive pyval : Type :=
| VNone
| VBool (b : bool)
| VInt (z : Z)
| VFloat (f : pyfloat)
| VStr (s : text)
| VList (xs : list pyval)
| VDict (items : list (text * pyval)).

(** [d[k]] on the items of a dict; [None] is [k not in d]. *)
Fixpoint dict_get (k : text) (items : list (text * pyval)) : option pyval :=
  match items with
  | [] => None
  | (k', v) :: rest => if text_eqb k' k then Some v else dict_get k rest
  end.

(** [d[k] = v]: the value is replaced in place, or the item appended. *)
Fixpoint dict_set (k : text) (v : pyval) (items : list (text * pyval))
    : list (text * pyval) :=
  match items with
  | [] => [(k, v)]
  | (k', v') :: rest =>
      if text_eqb k' k then (k', v) :: rest
      else (k', v') :: dict_set k v rest
  end.

(** ** [json.loads] (the decoder of CPython's [json] module) *)

Module Json.

(** The deepest nesting of arrays and objects that is decoded here.
    CPython raises [RecursionError] when the nesting exceeds what the
    recursion limit of the interpreter leaves at the call (1000 frames
    by default, less the frames of the caller); a value nested deeper
    than [max_nesting] is left outside the model. *)
Definition max_nesting : nat := 100.

Definition is_json_ws (c : ascii) : bool :=
  let n := code c in ((n =? 32) || (n =? 9) || (n =? 10) || (n =? 13))%N.

Fixpoint skip_ws (s : text) : text :=
  match s with
  | c :: s' => if is_json_ws c then skip_ws s' else s
  | [] => []
  end.

Definition hex_val (c : ascii) : option N :=
  let n := code c in
  if ((48 <=? n) && (n <=? 57))%N then Some (n - 48)%N
  else if ((65 <=? n) && (n <=? 70))%N then Some (n - 55)%N
  else if ((97 <=? n) && (n <=? 102))%N then Some (n - 87)%N
  else None.

Definition hex4 (a b c d : ascii) : option N :=
  match hex_val a, hex_val b, hex_val c, hex_val d with
  | Some x, Some y, Some z, Some w =>
      Some (((x * 16 + y) * 16 + z) * 16 + w)%N
  | _, _, _, _ => None
  end.

Definition chr (n : N) : ascii := ascii_of_N n.

(** The text of a string after its opening quote: the decoded string
    and the input after the closing quote. *)
Fixpoint scanstring (s : text) (acc : text) : outcome (text * text) :=
  match s with
  | [] => Raise JSONDecodeError
  | c :: s' =>
      if ascii_eqb c dquote then Ret (rev acc, s')
      else if ascii_eqb c "\" then
        match s' with
        | [] => Raise JSONDecodeError
        | e :: s'' =>
            if ascii_eqb e dquote then scanstring s'' (e :: acc)
            else if ascii_eqb e "\" then scanstring s'' (e :: acc)
            else if ascii_eqb e "/" then scanstring s'' (e :: acc)
            else if ascii_eqb e "b" then scanstring s'' (chr 8 :: acc)
            else if ascii_eqb e "f" then scanstring s'' (chr 12 :: acc)
            else if ascii_eqb e "n" then scanstring s'' (chr 10 :: acc)
            else if ascii_eqb e "r" then scanstring s'' (chr 13 :: acc)
            else if ascii_eqb e "t" then scanstring s'' (chr 9 :: acc)
            else if ascii_eqb e "u" then
              match s'' with
              | h1 :: h2 :: h3 :: h4 :: s3 =>
                  match hex4 h1 h2 h3 h4 with
                  | Some n =>
                      if (n <? 256)%N then scanstring s3 (chr n :: acc)
                      else Beyond
                  | None => Raise JSONDecodeError
                  end
              | _ => Raise JSONDecodeError
              end
            else Raise JSONDecodeError
        end
      else if (code c <? 32)%N then Raise JSONDecodeError
      else scanstring s' (c :: acc)
  end.

Fixpoint span (p : ascii -> bool) (s : text) : text * text :=
  match s with
  | c :: s' => if p c then let (a, b) := span p s' in (c :: a, b)
               else ([], s)
  | [] => ([], [])
  end.

(** A number literal at the head of [s]: an optional minus sign, then
    [0] or a run of digits not starting with [0], then an optional
    fraction (a dot and digits) and an optional exponent ([e] or [E],
    an optional sign, digits). With neither fraction nor exponent it is
    an [int], which [int()] refuses when it has more than
    [max_str_digits] digits; otherwise it is a [float]. *)
Definition scan_number (s : text) : option (outcome (pyval * text)) :=
  let (sign, s1) :=
    match s with
    | c :: r => if ascii_eqb c "-" then ([c], r) else ([], s)
    | [] => ([], s)
    end in
  let int_part :=
    match s1 with
    | c :: r =>
        if ascii_eqb c "0" then Some ([c], r)
        else if is_digit c then Some (span is_digit s1)
        else None
    | [] => None
    end in
  match int_part with
  | None => None
  | Some (ds, s2) =>
      let (frac, s3) :=
        match s2 with
        | c :: (d :: _) as r =>
            if ascii_eqb c "." && is_digit d
            then let (fs, r') := span is_digit r in (c :: fs, r')
            else ([], s2)
        | _ => ([], s2)
        end in
      let (ex, s4) :=
        match s3 with
        | e :: r =>
            if ascii_eqb e "e" || ascii_eqb e "E" then
              match r with
              | g :: (d :: _) as r' =>
                  if (ascii_eqb g "+" || ascii_eqb g "-") && is_digit d
                  then let (es, r'') := span is_digit r' in
                       (e :: g :: es, r'')
                  else if is_digit g
                  then let (es, r'') := span is_digit r in (e :: es, r'')
                  else ([], s3)
              | [g] => if is_digit g then ([e; g], []) else ([], s3)
              | [] => ([], s3)
              end
            else ([], s3)
        | [] => ([], s3)
        end in
      match frac, ex with
      | [], [] =>
          if (max_str_digits <? length ds)%nat then Some (Raise ValueError)
          else
            let n := int_of_digits ds in
            Some (Ret (VInt (match sign with [] => n | _ => - n end), s4))
      | _, _ => Some (Ret (VFloat (FLit (sign ++ ds ++ frac ++ ex)), s4))
      end
  end.

(** The text starts like a number: with a digit or a minus sign. *)
Definition starts_number (s : text) : bool :=
  match s with
  | c :: _ => is_digit c || ascii_eqb c "-"
  | [] => false
  end.

(** [s] after the word [w], when [s] starts with it. *)
Fixpoint after (w s : text) : option text :=
  match w, s with
  | [], _ => Some s
  | a :: w', b :: s' => if ascii_eqb a b then after w' s' else None
  | _ :: _, [] => None
  end.

(** [fuel] bounds the steps of the scan and [depth] the containers that
    may still be entered: every array and object, an empty one too,
    takes one level. *)
Fixpoint scan_once (fuel depth : nat) (s : text) {struct fuel}
    : outcome (pyval * text) :=
  match fuel with
  | O => Beyond
  | S f =>
      match s with
      | [] => Raise JSONDecodeError
      | c :: s' =>
          if ascii_eqb c dquote then
            '(t, r) ← scanstring s' []; Ret (VStr t, r)
          else if ascii_eqb c "{" then
            match depth with
            | O => Beyond
            | S d =>
                let r := skip_ws s' in
                match r with
                | c' :: r' =>
                    if ascii_eqb c' "}" then Ret (VDict [], r')
                    else parse_object f d r []
                | [] => Raise JSONDecodeError
                end
            end
          else if ascii_eqb c "[" then
            match depth with
            | O => Beyond
            | S d =>
                let r := skip_ws s' in
                match r with
                | c' :: r' =>
                    if ascii_eqb c' "]" then Ret (VList [], r')
                    else parse_array f d r []
                | [] => Raise JSONDecodeError
                end
            end
          else
            match after (str "null") s, after (str "true") s,
                  after (str "false") s with
            | Some r, _, _ => Ret (VNone, r)
            | _, Some r, _ => Ret (VBool true, r)
            | _, _, Some r => Ret (VBool false, r)
            | None, None, None =>
                match after (str "NaN") s, after (str "Infinity") s,
                      after (str "-Infinity") s with
                | Some r, _, _ => Ret (VFloat (FLit (str "NaN")), r)
                | _, Some r, _ => Ret (VFloat (FLit (str "Infinity")), r)
                | _, _, Some r => Ret (VFloat (FLit (str "-Infinity")), r)
                | None, None, None =>
                    match scan_number s with
                    | Some number => number
                    | None => Raise JSONDecodeError
                    end
                end
            end
      end
  end

(** The elements of an array from the first one on; [acc] holds the
    elements read so far, last first. *)
with parse_array (fuel depth : nat) (s : text) (acc : list pyval)
    {struct fuel} : outcome (pyval * text) :=
  match fuel with
  | O => Beyond
  | S f =>
      '(v, r) ← scan_once f depth s;
      match skip_ws r with
      | c :: r' =>
          if ascii_eqb c "]" then Ret (VList (rev (v :: acc)), r')
          else if ascii_eqb c ","
          then parse_array f depth (skip_ws r') (v :: acc)
          else Raise JSONDecodeError
      | [] => Raise JSONDecodeError
      end
  end

(** The items of an object from the first key on. *)
with parse_object (fuel depth : nat) (s : text) (acc : list (text * pyval))
    {struct fuel} : outcome (pyval * text) :=
  match fuel with
  | O => Beyond
  | S f =>
      match s with
      | q :: s' =>
          if ascii_eqb q dquote then
            '(k, r) ← scanstring s' [];
            match skip_ws r with
            | c :: r1 =>
                if ascii_eqb c ":" then
                  '(v, r2) ← scan_once f depth (skip_ws r1);
                  let acc' := dict_set k v acc in
                  match skip_ws r2 with
                  | d :: r3 =>
                      if ascii_eqb d "}" then Ret (VDict acc', r3)
                      else if ascii_eqb d ","
                      then parse_object f depth (skip_ws r3) acc'
                      else Raise JSONDecodeError
                  | [] => Raise JSONDecodeError
                  end
                else Raise JSONDecodeError
            | [] => Raise JSONDecodeError
            end
          else Raise JSONDecodeError
      | [] => Raise JSONDecodeError
      end
  end.

(** [json.loads(s)]: one value, surrounded by whitespace only. Besides
    [JSONDecodeError] it raises the [ValueError] of an integer literal
    that is too long. *)
Definition loads (s : text) : outcome pyval :=
  '(v, r) ← scan_once (S (2 * length s)) max_nesting (skip_ws s);
  match skip_ws r with
  | [] => Ret v
  | _ :: _ => Raise JSONDecodeError
  end.

End Json.

(** ** Python builtins left abstract

    Floating point and the general [int()] and [str()] conversions are
    not computed here; the development holds for every behaviour of
    them. *)

Class PyBuiltins : Type := {
  (** [float(s)] succeeds on the string [s]; it raises [ValueError]
      otherwise. *)
  float_parses : text -> bool;
  (** [int(f)] for a float: its truncation, [ValueError] for a NaN,
      [OverflowError] for an infinity. *)
  int_of_float : pyfloat -> outcome Z;
  (** [f == n] for a float [f] and an int [n] *)
  float_eq_int : pyfloat -> Z -> bool;
  (** [int(s)] for a string: its value, or [ValueError] *)
  int_of_str : text -> outcome Z;
  (** [str(v)] for a float, a list or a dict *)
  str_other : pyval -> text
}.

(** A behaviour of the builtins for the examples below, which involve
    neither floats nor numbers written as strings: no string converts
    and every float is a NaN. *)
Definition integers_only : PyBuiltins := {|
  float_parses := fun _ => false;
  int_of_float := fun _ => Raise ValueError;
  float_eq_int := fun _ _ => false;
  int_of_str := fun _ => Raise ValueError;
  str_other := fun _ => str "?"
|}.

(** ** Response parser ([_parse_llm_response]) *)

Module Parser.
Import Re.

Definition fence : text := str "```".

Definition has_newline (s : text) : bool :=
  existsb (fun c => ascii_eqb c newline) s.

(** [lines[1:-1]] *)
Definition inner (lines : list text) : list text :=
  removelast (tl lines).

(** The pre-processing of [_parse_llm_response]: the text handed to the
    three parsing methods. *)
Definition clean_response (response_text : text) : text :=
  let clean_text := strip response_text in
  let clean_text :=
    if startswith fence clean_text && has_newline clean_text then
      let lines := split_on newline clean_text in
      let clean_text :=
        if (3 <=? length lines)%nat
           && text_eqb (strip (List.last lines [])) fence
        then join [newline] (inner lines)
        else if (2 <=? length lines)%nat
        then join [newline] (tl lines)
        else clean_text in
      strip clean_text
    else clean_text in
  if startswith (lit "json|") clean_text
  then strip (skipn 5 clean_text)
  else if startswith (lit "JSON|") clean_text
  then strip (skipn 5 clean_text)
  else clean_text.

(** [try: toc_data = json.loads(s); if isinstance(toc_data, list): return
    toc_data; except json.JSONDecodeError: ...]: the list returned, if
    any. *)
Definition loads_list (s : text) : outcome (option (list pyval)) :=
  match Json.loads s with
  | Ret (VList xs) => Ret (Some xs)
  | Ret _ => Ret None
  | Raise JSONDecodeError => Ret None
  | Raise e => Raise e
  | Beyond => Beyond
  end.

Definition not_rbrace (c : ascii) : bool := negb (ascii_eqb c "}").

Definition object_group : regex :=
  Seq (Lit "{") (Seq (Star true (Chr not_rbrace)) (Lit "}")).

(** The repeated part [( \s* , \s* {[^}]*} )] of the pattern. *)
Definition more_group : regex :=
  Group 2 (Seq (Star true (Chr is_space))
          (Seq (Lit ",")
          (Seq (Star true (Chr is_space)) object_group))).

(** The pattern [( \[ \s* {[^}]*} ( \s* , \s* {[^}]*} )* \s* \] )],
    written here with blanks between its parts. *)
Definition json_pattern : regex :=
  Group 1
    (Seq (Lit "[")
    (Seq (Star true (Chr is_space))
    (Seq object_group
    (Seq (Star true more_group)
    (Seq (Star true (Chr is_space))
         (Lit "]")))))).

(** The loop over the matches of method 3. *)
Fixpoint first_list (candidates : list text) : outcome (option (list pyval)) :=
  match candidates with
  | [] => Ret None
  | c :: rest =>
      r ← loads_list c;
      match r with
      | Some xs => Ret (Some xs)
      | None => first_list rest
      end
  end.

(** The candidate of method 2: [clean_text[json_start:json_end+1]]. *)
Definition bracket_span (clean_text : text) : option text :=
  match find "[" clean_text, rfind "]" clean_text with
  | Some json_start, Some json_end =>
      if (json_start <? json_end)%nat
      then Some (slice json_start (S json_end) clean_text)
      else None
  | _, _ => None
  end.

Definition _parse_llm_response (response_text : text) : outcome (list pyval) :=
  let clean_text := clean_response response_text in
  r1 ← loads_list clean_text;
  match r1 with
  | Some xs => Ret xs
  | None =>
      r2 ← match bracket_span clean_text with
           | Some json_candidate => loads_list json_candidate
           | None => Ret None
           end;
      match r2 with
      | Some xs => Ret xs
      | None =>
          let matches := findall json_pattern clean_text in
          r3 ← first_list (map (fun caps => default [] (group 1 caps)) matches);
          match r3 with
          | Some xs => Ret xs
          | None => Ret []
          end
      end
  end.

(** *** The texts that the pattern of method 3 matches *)

(** The text [s] starts with the character [c]. *)
Definition head_is (c : ascii) (s : text) : bool :=
  match s with
  | x :: _ => ascii_eqb x c
  | [] => false
  end.

(** No bracket of [pre] is followed, after white space, by an opening
    brace. *)
Fixpoint opens_no_object (pre : text) : bool :=
  match pre with
  | [] => true
  | c :: pre' =>
      negb (ascii_eqb c "[" && head_is "{" (lstrip pre'))
      && opens_no_object pre'
  end.

(** An element of an array of objects: the white space before the
    object, the text between its braces and the white space after
    it. *)
Definition array_element : Type := text * text * text.

(** The white space is white space, and the object holds no closing
    brace inside. *)
Definition flat_element (e : array_element) : bool :=
  let '(before, inner, after) := e in
  forallb is_space before && forallb not_rbrace inner
  && forallb is_space after.

(** The text of an array from the white space after an object on: the
    further elements, each after a comma, and the closing bracket;
    [post] is what follows the array. *)
Fixpoint array_tail (after : text) (more : list array_element) (post : text)
    : text :=
  match more with
  | [] => after ++ "]"%char :: post
  | (before, inner, after') :: more' =>
      after ++ ","%char :: before ++ "{"%char :: inner
        ++ "}"%char :: array_tail after' more' post
  end.

(** The text of the array of the objects [first :: more]. *)
Definition flat_array (first : array_element) (more : list array_element)
    : text :=
  let '(before, inner, after) := first in
  "["%char :: before ++ "{"%char :: inner
    ++ "}"%char :: array_tail after more [].

End Parser.

(** ** Entry validator ([validate_toc_data]) *)

Section Validator.
Context `{PyBuiltins}.

(** [x if isinstance(x, int) else int(float(x))] *)
Definition coerce_int (v : pyval) : outcome pyint :=
  match v with
  | VInt z => Ret (IInt z)
  | VBool b => Ret (IBool b)
  | VFloat f => z ← int_of_float f; Ret (IInt z)
  | VStr s =>
      if float_parses s then z ← int_of_float (FLit s); Ret (IInt z)
      else Raise ValueError
  | VNone | VList _ | VDict _ => Raise TypeError
  end.

(** [str(v)] *)
Definition py_str (v : pyval) : text :=
  match v with
  | VStr s => s
  | VInt z => str_of_int z
  | VBool true => str "True"
  | VBool false => str "False"
  | VNone => str "None"
  | _ => str_other v
  end.

Definition str_of_pyint (p : pyint) : text :=
  match p with
  | IInt z => str_of_int z
  | IBool true => str "True"
  | IBool false => str "False"
  end.

(** [page != -1 and (page < 1 or page > max_pages)] *)
Definition out_of_range (page max_pages : Z) : bool :=
  negb (page =? -1) && ((page <? 1) || (page >? max_pages)).

Inductive verdict : Type :=
| Keep (e : TocEntry)
| Drop.

(** The handler [except (ValueError, TypeError): continue] of the loop
    body; [JSONDecodeError] is a subclass of [ValueError]. *)
Definition drop_on_conversion_error (m : outcome verdict) : outcome verdict :=
  match m with
  | Raise ValueError | Raise TypeError | Raise JSONDecodeError => Ret Drop
  | _ => m
  end.

(** One iteration of the loop of [validate_toc_data]. The messages
    that the loop writes to the log are not part of the model. Python
    refuses to print an [int] of more than [max_str_digits] digits
    ([ValueError]), so a message that shows such an item or page raises
    where the model answers [Drop]; [json.loads] and [int()] never
    return such an [int], and the lists that this program hands to the
    validator come from them. *)
Definition validate_item (item : pyval) (max_pages : Z) : outcome verdict :=
  match item with
  | VDict d =>
      match dict_get (str "title") d, dict_get (str "page") d,
            dict_get (str "level") d with
      | Some t, Some p, Some l =>
          drop_on_conversion_error (
            page ← coerce_int p;
            if out_of_range (int_val page) max_pages then Ret Drop
            else
              let title := strip (py_str t) in
              if text_eqb title [] then Ret Drop
              else
                level ← coerce_int l;
                let level := Z.max 1 (int_val level) in
                let level := Z.min 6 level in
                Ret (Keep {| title := title; page := page; level := level |}))
      | _, _, _ => Ret Drop
      end
  | _ => Ret Drop
  end.

Fixpoint validate_items (items : list pyval) (max_pages : Z)
    : outcome (list TocEntry) :=
  match items with
  | [] => Ret []
  | item :: rest =>
      v ← validate_item item max_pages;
      validated_data ← validate_items rest max_pages;
      Ret (match v with
           | Keep e => e :: validated_data
           | Drop => validated_data
           end)
  end.

(** The key [f"{item['title']}:{item['page']}"] *)
Definition key_string (e : TocEntry) : text :=
  title e ++ str ":" ++ str_of_pyint (page e).

Definition validate_toc_data (toc_data : pyval) (max_pages : Z)
    : outcome (list TocEntry) :=
  match toc_data with
  | VList items =>
      validated_data ← validate_items items max_pages;
      Ret (dedup_by key_string ∅ validated_data)
  | _ => Ret []
  end.

(** A result list as the Python value it is. *)
Definition pyval_of_pyint (p : pyint) : pyval :=
  match p with
  | IInt z => VInt z
  | IBool b => VBool b
  end.

Definition pyval_of_entry (e : TocEntry) : pyval :=
  VDict [(str "title", VStr (title e));
         (str "page", pyval_of_pyint (page e));
         (str "level", VInt (level e))].

Definition pyval_of_entries (es : list TocEntry) : pyval :=
  VList (map pyval_of_entry es).

End Validator.

(** What every entry appended to [validated_data] satisfies. *)
Definition valid_entry (max_pages : Z) (e : TocEntry) : Prop :=
  out_of_range (int_val (page e)) max_pages = false
  /\ strip (title e) = title e
  /\ title e <> []
  /\ 1 <= level e <= 6.

(** ** User-supplied table of contents ([PDFReader.set_user_toc_data]) *)

Section Reader.
Context `{PyBuiltins}.

(** [int(v)] *)
Definition py_int (v : pyval) : outcome Z :=
  match v with
  | VInt z => Ret z
  | VBool b => Ret (int_val (IBool b))
  | VFloat f => int_of_float f
  | VStr s => int_of_str s
  | VNone | VList _ | VDict _ => Raise TypeError
  end.

(** The loop over the parsed items: items that are no dict, or lack a
    field, are skipped; a failing conversion raises. *)
Fixpoint convert_items (items : list pyval) : outcome (list TocEntry) :=
  match items with
  | [] => Ret []
  | item :: rest =>
      match item with
      | VDict d =>
          match dict_get (str "title") d, dict_get (str "page") d,
                dict_get (str "level") d with
          | Some t, Some p, Some l =>
              page ← py_int p;
              level ← py_int l;
              validated_data ← convert_items rest;
              Ret ({| title := py_str t; page := IInt page; level := level |}
                   :: validated_data)
          | _, _, _ => convert_items rest
          end
      | _ => convert_items rest
      end
  end.

(** The state is the attribute [self.user_toc_data]; the result pairs
    its new value with the returned list. Both handlers
    ([except json.JSONDecodeError], [except Exception]) return [[]]. *)
Definition set_user_toc_data (user_toc_data : option (list TocEntry))
    (toc_json : text)
    : outcome (option (list TocEntry) * list TocEntry) :=
  match Json.loads toc_json with
  | Ret (VList items) =>
      match convert_items items with
      | Ret validated_data => Ret (Some validated_data, validated_data)
      | Raise _ => Ret (user_toc_data, [])
      | Beyond => Beyond
      end
  | Ret _ => Ret (user_toc_data, [])
  | Raise _ => Ret (user_toc_data, [])
  | Beyond => Beyond
  end.

End Reader.

(** ** Outline builder ([PDFWriter.create_bookmarks_from_toc]) *)

Module Writer.

(** An outline item of the pypdf writer; the id returned for it is its
    position in [outline], the items of the writer in the order of their
    creation. *)
Record OutlineItem : Type := mkItem {
  o_title : text;
  o_page : Z;
  o_parent : option Z
}.

(** A loaded [PDFWriter]: the page count of [self.reader] and, of
    [self.writer], the outline that pypdf keeps, extends in
    [add_outline_item] and writes with the document, and the attribute
    [outline_root] that the source assigns ([None] before the first
    assignment). pypdf reads no attribute of this name, so the
    assignment leaves [outline] as it is. *)
Record PdfWriter : Type := mkWriter {
  num_pages : Z;
  outline : list OutlineItem;
  outline_root : option (list OutlineItem)
}.

Section Builder.

(** pypdf refusing to add an item (the call raises). *)
Variable pypdf_raises : text -> Z -> bool.

(** [PDFWriter.add_outline_item] on a loaded writer: the id of the new
    item, or [-1] when pypdf raised. *)
Definition add_outline_item (w : PdfWriter) (title : text) (page_num : Z)
    (parent : option Z) : PdfWriter * Z :=
  if pypdf_raises title page_num then (w, -1)
  else ({| num_pages := num_pages w;
           outline := outline w ++ [{| o_title := title; o_page := page_num;
                                       o_parent := parent |}];
           outline_root := outline_root w |},
        Z.of_nat (length (outline w))).

(** [for prev_level in range(n, 0, -1): if prev_level in parent_map:
    parent_id = parent_map[prev_level]; break] *)
Fixpoint search_down (parent_map : gmap Z Z) (n : nat) : option Z :=
  match n with
  | O => None
  | S n' =>
      match parent_map !! Z.of_nat n with
      | Some parent_id => Some parent_id
      | None => search_down parent_map n'
      end
  end.

Definition find_parent (parent_map : gmap Z Z) (level : Z) : option Z :=
  if 1 <? level then search_down parent_map (Z.to_nat (level - 1))
  else None.

(** One iteration of [for item in toc_data]. *)
Definition bookmark_step (st : PdfWriter * gmap Z Z) (item : TocEntry)
    : PdfWriter * gmap Z Z :=
  let (w, parent_map) := st in
  let title := title item in
  let page_num := int_val (page item) in
  let level := level item in
  if (page_num <? 0) || (page_num >=? num_pages w) then st
  else
    let parent_id := find_parent parent_map level in
    let (w', outline_id) := add_outline_item w title page_num parent_id in
    if outline_id =? -1 then (w', parent_map)
    else (w', <[ level := outline_id ]> parent_map).

(** [self] is [None] before [load()] and after [close()]. The first
    statement, [self.writer.outline_root = []], sets the attribute and
    nothing else. *)
Definition create_bookmarks_from_toc (self : option PdfWriter)
    (toc_data : list TocEntry) : bool * option PdfWriter :=
  match self with
  | None => (false, None)
  | Some w =>
      let w0 := {| num_pages := num_pages w; outline := outline w;
                   outline_root := Some [] |} in
      let (w', _) := fold_left bookmark_step toc_data (w0, ∅) in
      (true, Some w')
  end.

(** *** The nodes of the specification

    The entries that become nodes, with the ids they receive, and the
    parent the specification gives each of them. *)

(** The entry becomes a node of a document of [n] pages. *)
Definition becomes_node (n : Z) (item : TocEntry) : bool :=
  negb ((int_val (page item) <? 0) || (int_val (page item) >=? n))
  && negb (pypdf_raises (title item) (int_val (page item))).




End Builder.


(** What an outline item, and an entry, point at. *)
Definition item_target (i : OutlineItem) : text * Z := (o_title i, o_page i).
Definition entry_target (e : TocEntry) : text * Z :=
  (title e, int_val (page e)).

(** Entries and outline items for the examples. *)
Definition entry (t : string) (p l : Z) : TocEntry :=
  {| title := str t; page := IInt p; level := l |}.

Definition item (t : string) (p : Z) (parent : option Z) : OutlineItem :=
  {| o_title := str t; o_page := p; o_parent := parent |}.

End Writer.

(** ** Extraction orchestrator ([TocExtractor])

    The collaborators of the extractor are the fields of a [World]; the
    object itself is an [Extractor] threaded through the methods. *)

(** The three prompts sent to the model. *)
Inductive prompt : Type :=
| PagePrompt (toc_text : text)
| RangePrompt (range_full_text : text)
| ImagePrompt (toc_text : text) (images : list text).

Record World : Type := mkWorld {
  (** [ChatOpenAI(...)] can be constructed. *)
  chat_init : bool;
  (** The content of the response to the n-th [llm.invoke]; [None] when
      the call raises. *)
  llm_invoke : nat -> prompt -> option text;
  (** [pypdf] could be imported ([self.PdfReader] is not [None]). *)
  have_pypdf : bool;
  (** The pages of the file at [pdf_file_path], each with the result of
      its [extract_text()] ([None] when it raises); [None] when the file
      cannot be opened. *)
  pdf_pages : option (list (option text));
  (** The images [convert_pages_to_base64] renders for a 0-based range *)
  render : Z -> Z -> list text;
  model_name : text;
  (** The line [=== ... ===] put before the text of page [n]; its two
      CJK characters lie outside the alphabet, so the line is kept
      abstract. *)
  page_header : Z -> text
}.

(** [self.llm] is set; the number of calls made to the model. *)
Record Extractor : Type := mkExtractor {
  llm : bool;
  calls : nat
}.

(** A method: a state transformer that returns or raises. *)
Definition M (A : Type) : Type := Extractor -> Extractor * outcome A.

Global Instance M_ret : MRet M := fun A a st => (st, Ret a).

Global Instance M_bind : MBind M := fun A B f m st =>
  match m st with
  | (st', Ret a) => f a st'
  | (st', Raise e) => (st', Raise e)
  | (st', Beyond) => (st', Beyond)
  end.

Definition lift {A : Type} (o : outcome A) : M A := fun st => (st, o).

(** [try: m except Exception: h] *)
Definition try_catch {A : Type} (m : M A) (h : M A) : M A := fun st =>
  match m st with
  | (st', Raise _) => h st'
  | r => r
  end.

Fixpoint for_each {A S : Type} (xs : list A) (body : A -> S -> M S)
    (s : S) : M S :=
  match xs with
  | [] => mret s
  | x :: xs' => s' ← body x s; for_each xs' body s'
  end.

Fixpoint map_outcome {A B : Type} (f : A -> outcome B) (xs : list A)
    : outcome (list B) :=
  match xs with
  | [] => Ret []
  | x :: xs' => y ← f x; ys ← map_outcome f xs'; Ret (y :: ys)
  end.

(** [s.lower()] on U+0000..U+00FF *)
Definition lower_char (c : ascii) : ascii :=
  let n := code c in
  if ((65 <=? n) && (n <=? 90) || (192 <=? n) && (n <=? 222)
      && negb (n =? 215))%N
  then ascii_of_N (n + 32) else c.

(** [needle in s] *)
Fixpoint contains (needle s : text) : bool :=
  startswith needle s
  || match s with
     | [] => false
     | _ :: s' => contains needle s'
     end.

(** Every value a method returns satisfies [P]. *)
Definition yields {A : Type} (P : A -> Prop) (m : M A) : Prop :=
  forall st st' a, m st = (st', Ret a) -> P a.



Section Orchestrator.
Context `{PyBuiltins}.
Variable world : World.

Import Simple Parser.

(** [self.initialize()] *)
Definition initialize : M bool := fun st =>
  if chat_init world then ({| llm := true; calls := calls st |}, Ret true)
  else (st, Ret false).

(** [if not self.llm: if not self.initialize(): ...]: whether a model is
    available afterwards. *)
Definition ensure_llm : M bool := fun st =>
  if llm st then (st, Ret true) else initialize st.

(** [self.llm.invoke([...]).content] *)
Definition invoke (p : prompt) : M text := fun st =>
  ({| llm := llm st; calls := S (calls st) |},
   match llm_invoke world (calls st) p with
   | Some content => Ret content
   | None => Raise LLMError
   end).

(** [v != -1] *)
Definition ne_minus_one (v : pyval) : bool :=
  match v with
  | VInt z => negb (z =? -1)
  | VFloat f => negb (float_eq_int f (-1))
  | _ => true
  end.

(** [v += n] for an int [n] *)
Definition add_int (v : pyval) (n : Z) : outcome pyval :=
  match v with
  | VInt z => Ret (VInt (z + n))
  | VBool b => Ret (VInt (int_val (IBool b) + n))
  | VFloat f => Ret (VFloat (FAddInt f n))
  | VNone | VStr _ | VList _ | VDict _ => Raise TypeError
  end.

(** [if item['page'] != -1: item['page'] += page_offset] *)
Definition add_offset (page_offset : Z) (item : pyval) : outcome pyval :=
  match item with
  | VDict d =>
      match dict_get (str "page") d with
      | Some p =>
          if ne_minus_one p
          then p' ← add_int p page_offset;
               Ret (VDict (dict_set (str "page") p' d))
          else Ret item
      | None => Raise KeyError
      end
  | _ => Raise TypeError
  end.

Definition extract_toc_from_text (toc_text : text) (page_offset : Z)
    : M (list TocEntry) :=
  ready ← ensure_llm;
  if negb ready
  then mret (_extract_toc_with_simple_parsing toc_text page_offset)
  else
    content ← invoke (PagePrompt toc_text);
    toc_data ← lift (_parse_llm_response content);
    match toc_data with
    | [] => mret (_extract_toc_with_simple_parsing toc_text page_offset)
    | _ :: _ =>
        toc_data ← lift (if page_offset =? 0 then Ret toc_data
                         else map_outcome (add_offset page_offset) toc_data);
        lift (validate_toc_data (VList toc_data) 1000)
    end.

(** [self.PdfReader(pdf_file_path).pages] *)
Definition open_pdf : outcome (list (option text)) :=
  if have_pypdf world
  then match pdf_pages world with
       | Some pages => Ret pages
       | None => Raise ValueError
       end
  else Raise TypeError.

(** [page.extract_text()] for [page = reader.pages[i]], [0 <= i < len] *)
Definition page_text (pages : list (option text)) (i : Z) : outcome text :=
  match pages !! Z.to_nat i with
  | Some (Some t) => Ret t
  | _ => Raise ValueError
  end.

Definition headed (page_idx : Z) (t : text) : text :=
  page_header world (page_idx + 1) ++ [newline] ++ t.

(** The 0-based page indices of a 1-based range, clipped to the file. *)
Definition clipped (pages : list (option text)) (range : Z * Z) : list Z :=
  let (start_page, end_page) := range in
  let start_page_idx := Z.max 0 (start_page - 1) in
  let end_page_idx := Z.min (Z.of_nat (length pages) - 1) (end_page - 1) in
  seqZ start_page_idx (end_page_idx + 1 - start_page_idx).

(** The body of the page loop of [extract_toc_from_pdf_toc_pages]. *)
Definition page_step (pages : list (option text)) (page_offset : Z)
    (page_idx : Z) (full_toc_data : list TocEntry) : M (list TocEntry) :=
  try_catch
    (t ← lift (page_text pages page_idx);
     if text_eqb t [] then mret full_toc_data
     else
       try_catch
         (page_toc_data ← extract_toc_from_text (headed page_idx t) page_offset;
          mret (full_toc_data ++ page_toc_data))
         (mret full_toc_data))
    (mret full_toc_data).

(** The texts gathered again for the pattern fallback. *)
Definition fallback_texts (pages : list (option text))
    (page_ranges : list (Z * Z)) : list text :=
  flat_map (fun range =>
    omap (fun page_idx =>
            match page_text pages page_idx with
            | Ret t => if text_eqb t [] then None
                       else Some (headed page_idx t)
            | _ => None
            end)
         (clipped pages range))
    page_ranges.

Definition extract_toc_from_pdf_toc_pages (page_ranges : list (Z * Z))
    (page_offset : Z) : M (list TocEntry) :=
  if negb (have_pypdf world) then mret []
  else
    try_catch
      (pages ← lift open_pdf;
       full_toc_data ←
         for_each page_ranges
           (fun range full => for_each (clipped pages range)
                                (page_step pages page_offset) full)
           [];
       match full_toc_data with
       | [] =>
           match fallback_texts pages page_ranges with
           | [] => mret []
           | full_toc_text =>
               mret (_extract_toc_with_simple_parsing
                       (join [newline; newline] full_toc_text) page_offset)
           end
       | _ :: _ =>
           let max_pages := Z.of_nat (length pages) in
           full_toc_data ←
             lift (validate_toc_data (pyval_of_entries full_toc_data)
                                     max_pages);
           mret (dedup_by entry_key ∅ full_toc_data)
       end)
      (mret []).

(** The capability check on the model name. *)
Definition is_multimodal : bool :=
  startswith (str "gpt-4") (model_name world)
  || contains (str "omni") (map lower_char (model_name world))
  || contains (str "vl") (map lower_char (model_name world)).

(** [reader.pages[i].extract_text()] with Python's indexing: a negative
    [i] counts from the end. *)
Definition page_text_at (pages : list (option text)) (i : Z) : outcome text :=
  let j := if i <? 0 then i + Z.of_nat (length pages) else i in
  if j <? 0 then Raise IndexError else page_text pages j.

(** The texts of [range(start_page - 1, end_page)] that exist and are
    not empty, each under its header. *)
Definition range_texts (pages : list (option text)) (start_page end_page : Z)
    : outcome (list text) :=
  texts ← map_outcome
    (fun page_num =>
       if page_num <? Z.of_nat (length pages)
       then t ← page_text_at pages page_num;
            Ret (if text_eqb t [] then None else Some (headed page_num t))
       else Ret (None : option text))
    (seqZ (start_page - 1) (end_page - (start_page - 1)));
  Ret (omap id (texts : list (option text))).

(** The degradation of one range to the page-by-page extraction. *)
Definition range_fallback (range : Z * Z) (page_offset : Z)
    (full_toc_data : list pyval) : M (list pyval) :=
  current_toc_data ← extract_toc_from_pdf_toc_pages [range] page_offset;
  mret (full_toc_data ++ map pyval_of_entry current_toc_data).

(** The body of the loop over the page ranges. *)
Definition range_step (toc_text : text) (page_offset : Z) (range : Z * Z)
    (full_toc_data : list pyval) : M (list pyval) :=
  let (start_page, end_page) := range in
  let image_data_list := render world (start_page - 1) (end_page - 1) in
  try_catch
    (parsed ←
       (if is_multimodal then
          content ← invoke (ImagePrompt toc_text image_data_list);
          toc_data ← lift (_parse_llm_response content);
          mret (Some toc_data)
        else
          try_catch
            (pages ← lift open_pdf;
             texts ← lift (range_texts pages start_page end_page);
             content ← invoke (RangePrompt (join [newline; newline] texts));
             toc_data ← lift (_parse_llm_response content);
             mret (Some toc_data))
            (mret None));
     match parsed with
     | None => range_fallback range page_offset full_toc_data
     | Some toc_data =>
         toc_data ←
           lift (match toc_data with
                 | [] => Ret toc_data
                 | _ :: _ =>
                     if page_offset =? 0 then Ret toc_data
                     else map_outcome (add_offset page_offset) toc_data
                 end);
         match toc_data with
         | [] => range_fallback range page_offset full_toc_data
         | _ :: _ => mret (full_toc_data ++ toc_data)
         end
     end)
    (try_catch (range_fallback range page_offset full_toc_data)
               (mret full_toc_data)).

(** The method defined under the name [extract_toc_from_text_with_images]
    and then rebound to [_extract_toc_from_text_with_images_impl]. *)
Definition _extract_toc_from_text_with_images_impl (toc_text : text)
    (page_ranges : list (Z * Z)) (page_offset : Z) : M (list TocEntry) :=
  ready ← ensure_llm;
  if negb ready then mret []
  else
    try_catch
      (match pdf_pages world with
       | None => extract_toc_from_pdf_toc_pages page_ranges page_offset
       | Some converter_pages =>
           full_toc_data ←
             for_each page_ranges (range_step toc_text page_offset) [];
           match full_toc_data with
           | [] => extract_toc_from_pdf_toc_pages page_ranges page_offset
           | _ :: _ =>
               let max_pages := Z.of_nat (length converter_pages) in
               lift (validate_toc_data (VList full_toc_data) max_pages)
           end
       end)
      (extract_toc_from_pdf_toc_pages page_ranges page_offset).

(** The public [extract_toc_from_text_with_images]: the wrapper
    [_extract_toc_from_text_with_images_legacy]. *)
Definition extract_toc_from_text_with_images (toc_text : text)
    (start_page end_page : Z) (page_offset : Z) : M (list TocEntry) :=
  _extract_toc_from_text_with_images_impl toc_text
    [(start_page, end_page)] page_offset.

End Orchestrator.

(** A document of one page whose text is the line
    "1.2.3.4.5.6.7 Deep 5", and a model that answers every prompt with a
    sentence. *)
Definition deep_world (answer : option text) : World := {|
  chat_init := true;
  llm_invoke := fun _ _ => answer;
  have_pypdf := true;
  pdf_pages := Some [Some (str "1.2.3.4.5.6.7 Deep 5")];
  render := fun _ _ => [];
  model_name := str "gpt-3.5-turbo";
  page_header := fun n => str "=== " ++ str_of_int n ++ str " ==="
|}.

Definition fresh : Extractor := {| llm := false; calls := 0 |}.

(** ** Page texts ([PDFReader])

    [self.reader] is the list of the pages of the loaded file, each with
    the result of its [extract_text()], or [None] before [load_pdf()]
    succeeded and after [close()]. *)

Definition get_num_pages (reader : option (list (option text))) : Z :=
  match reader with
  | Some pages => Z.of_nat (length pages)
  | None => 0
  end.

Definition get_text_by_page_range (reader : option (list (option text)))
    (start_page end_page : Z) : outcome (list text) :=
  match reader with
  | None => Ret []
  | Some pages =>
      let start_page := Z.max 0 start_page in
      let end_page := Z.min (Z.of_nat (length pages) - 1) end_page in
      if start_page >? end_page then Ret []
      else map_outcome (page_text pages)
                       (seqZ start_page (end_page + 1 - start_page))
  end.

Definition extract_table_of_contents (reader : option (list (option text)))
    (start_page end_page : Z) : outcome text :=
  toc_pages_text ← get_text_by_page_range reader start_page end_page;
  Ret (join [newline; newline] toc_pages_text).

(** ** Image rendering ([PDFToImageConverter]) *)

Module Converter.

(** A converter: [self.reader] is set, [self.num_pages], and the cache
    of rendered pages keyed by page number and resolution. *)
Record PDFToImageConverter : Type := mkConverter {
  loaded : bool;
  num_pages : Z;
  _image_cache : gmap (Z * Z) text
}.

Section Rendering.

(** The PNG bytes rendered for a page at a resolution; [None] when the
    rendering raises or gives no image. *)
Variable render_page : Z -> Z -> option text.

(** [base64.b64encode(image_data).decode('utf-8')] *)
Variable b64encode : text -> text.

Definition convert_page_to_image (self : PDFToImageConverter)
    (page_num dpi : Z) : PDFToImageConverter * option text :=
  if negb (loaded self) || (page_num <? 0) || (page_num >=? num_pages self)
  then (self, None)
  else
    let cache_key := (page_num, dpi) in
    match _image_cache self !! cache_key with
    | Some img_data => (self, Some img_data)
    | None =>
        match render_page page_num dpi with
        | Some img_data =>
            ({| loaded := loaded self; num_pages := num_pages self;
                _image_cache := <[ cache_key := img_data ]>
                                  (_image_cache self) |},
             Some img_data)
        | None => (self, None)
        end
    end.

(** The body of [for page_num in range(start, end + 1)]; an entry is a
    pair of [page_number] and [base64_image]. *)
Definition page_to_base64 (dpi : Z)
    (st : PDFToImageConverter * list (Z * text)) (page_num : Z)
    : PDFToImageConverter * list (Z * text) :=
  let (self, result) := st in
  let (self', image_data) := convert_page_to_image self page_num dpi in
  match image_data with
  | Some (b :: bs) => (self', result ++ [(page_num + 1, b64encode (b :: bs))])
  | _ => (self', result)
  end.

(** The body of [for start, end in page_ranges]. *)
Definition range_to_base64 (dpi : Z)
    (st : PDFToImageConverter * list (Z * text)) (range : Z * Z)
    : PDFToImageConverter * list (Z * text) :=
  let (start, end_) := range in
  let start := Z.max 0 start in
  let end_ := Z.min (num_pages (fst st) - 1) end_ in
  if start >? end_ then st
  else fold_left (page_to_base64 dpi) (seqZ start (end_ + 1 - start)) st.

Definition convert_pages_to_base64 (self : PDFToImageConverter)
    (page_ranges : list (Z * Z)) (dpi : Z)
    : PDFToImageConverter * list (Z * text) :=
  fold_left (range_to_base64 dpi) page_ranges (self, []).

End Rendering.

(** The converter after a sequence of conversion requests, each with
    the rendering in force at its time. *)
Definition after_requests (self : PDFToImageConverter)
    (requests : list ((Z -> Z -> option text) * Z * Z))
    : PDFToImageConverter :=
  fold_left (fun c '(render_page, page_num, dpi) =>
               fst (convert_page_to_image render_page c page_num dpi))
            requests self.

End Converter.

(** ** Worker thread of the main window ([WorkerThread]) *)

(** The message of [finished.emit(False, ...)]. *)
Inductive failure : Type :=
| LoadFailed
| NoTocText
| LlmInitFailed
| NoValidToc
| BookmarksFailed
| SaveFailed.

(** What a task emits: [Done] stands for [finished.emit(True, ...)]
    together with the data emitted before it. *)
Inductive emission (A : Type) : Type :=
| Done (a : A)
| Failed (why : failure).

Arguments Done {A} a.
Arguments Failed {A} why.

Section Worker.
Context `{PyBuiltins}.
Variable world : World.

(** [TocExtractor(api_key, model_name=..., base_url=...)]: a new object
    without a model; the calls made so far stay counted. *)
Definition new_extractor : M unit := fun st =>
  ({| llm := false; calls := calls st |}, Ret tt).

(** [toc_extractor = TocExtractor(...); if not toc_extractor.initialize():
    ... return; toc_data = toc_extractor.extract_toc_from_text(toc_text)] *)
Definition plain_text_extraction (toc_text : text)
    : M (option (list TocEntry)) :=
  _ ← new_extractor;
  ready ← initialize world;
  if negb ready then mret None
  else toc_data ← extract_toc_from_text world toc_text 0;
       mret (Some toc_data).

(** [WorkerThread._extract_toc] for the file of [world] and the 1-based
    range of pages that holds its table of contents. *)
Definition _extract_toc (start_page end_page : Z)
    : M (emission (list TocEntry)) :=
  let reader := pdf_pages world in
  match reader with
  | None => mret (Failed LoadFailed)
  | Some _ =>
      toc_text ← lift (extract_table_of_contents reader (start_page - 1)
                                                 (end_page - 1));
      if text_eqb toc_text [] then mret (Failed NoTocText)
      else
        _ ← new_extractor;
        ready ← initialize world;
        extracted ←
          (if negb ready then plain_text_extraction toc_text
           else
             toc_data ← extract_toc_from_text_with_images world toc_text
                          start_page end_page 0;
             match toc_data with
             | [] => plain_text_extraction toc_text
             | _ :: _ => mret (Some toc_data)
             end);
        match extracted with
        | None => mret (Failed LlmInitFailed)
        | Some [] => mret (Failed NoValidToc)
        | Some toc_data =>
            toc_data ← lift (validate_toc_data (pyval_of_entries toc_data)
                                               (get_num_pages reader));
            mret (Done toc_data)
        end
  end.

(** [adjusted_item = item.copy(); if adjusted_item['page'] != -1:
    adjusted_item['page'] += page_offset - 1] *)
Definition adjusted_item (page_offset : Z) (item : TocEntry) : TocEntry :=
  if int_val (page item) =? -1 then item
  else {| title := title item;
          page := IInt (int_val (page item) + (page_offset - 1));
          level := level item |}.

(** [PDFWriter(input_file).load()]: a new pypdf writer that receives
    the pages of the file, and nothing else of it. *)
Definition load (input : option (list (option text)))
    : option Writer.PdfWriter :=
  match input with
  | Some pages => Some {| Writer.num_pages := Z.of_nat (length pages);
                          Writer.outline := [];
                          Writer.outline_root := None |}
  | None => None
  end.

(** [WorkerThread._process_pdf]: the writer that is saved. [can_save]
    tells whether writing the output file succeeds. *)
Definition _process_pdf (pypdf_raises : text -> Z -> bool)
    (input : option (list (option text))) (can_save : bool)
    (toc_data : list TocEntry) (page_offset : Z)
    : emission Writer.PdfWriter :=
  let adjusted_toc := map (adjusted_item page_offset) toc_data in
  match load input with
  | None => Failed LoadFailed
  | Some writer =>
      match Writer.create_bookmarks_from_toc pypdf_raises (Some writer)
                                             adjusted_toc with
      | (true, Some writer') =>
          if can_save then Done writer' else Failed SaveFailed
      | _ => Failed BookmarksFailed
      end
  end.

(** The filter of [MainWindow.import_json_toc] on the imported items. *)
Definition valid_toc_data (toc_data : list TocEntry) (max_pages : Z)
    : list TocEntry :=
  List.filter (fun item =>
                 (int_val (page item) =? -1)
                 || ((int_val (page item) >=? 1)
                     && (int_val (page item) <=? max_pages)))
              toc_data.

End Worker.

(** The entries [_process_pdf] turns into bookmarks in a file of [n]
    pages: the page is known and, moved by [page_offset - 1], lies in
    the file, and pypdf accepts the item. *)
Definition bookmarked (pypdf_raises : text -> Z -> bool) (n page_offset : Z)
    (item : TocEntry) : bool :=
  let page_num := int_val (page item) + (page_offset - 1) in
  negb (int_val (page item) =? -1)
  && (0 <=? page_num) && (page_num <? n)
  && negb (pypdf_raises (title item) page_num).

(** The target of the bookmark of an entry. *)
Definition bookmark_target (page_offset : Z) (item : TocEntry) : text * Z :=
  (title item, int_val (page item) + (page_offset - 1)).

(** [_process_pdf] with the offset 0 saves the file of [pages], and its
    outline has one item for each entry of [toc_data] with a known page,
    in order, at the 0-based page; pypdf accepts every item and the
    output can be written. *)
Definition bookmarks_all (pages : list (option text))
    (toc_data : list TocEntry) : Prop :=
  exists saved,
    _process_pdf (fun _ _ => false) (Some pages) true toc_data 0 = Done saved
    /\ map Writer.item_target (Writer.outline saved)
       = map (fun item => (title item, int_val (page item) - 1))
           (List.filter (fun item => negb (int_val (page item) =? -1))
              toc_data).

(** ** Predicates of the properties *)

(** The entry with its page moved by [n]. *)
Definition shift_page (n : Z) (e : TocEntry) : TocEntry :=
  {| title := title e; page := IInt (int_val (page e) + n); level := level e |}.

(** Every parent of an outline item is an item created before it. *)
Definition parents_first (outline : list Writer.OutlineItem) : Prop :=
  forall (i : nat) (it : Writer.OutlineItem) (p : Z),
    outline !! i = Some it -> Writer.o_parent it = Some p ->
    0 <= p < Z.of_nat i.

(** Every parent of an item of [created], the items added to an outline
    that held [base] items, is an item of [created] added before it. *)
Definition parents_within (base : nat) (created : list Writer.OutlineItem)
    : Prop :=
  forall (i : nat) (it : Writer.OutlineItem) (p : Z),
    created !! i = Some it -> Writer.o_parent it = Some p ->
    Z.of_nat base <= p < Z.of_nat (base + i).

(** The ids recorded in [parent_map] are ids of items added to an
    outline that held [base] items. *)
Definition ids_between (base : nat) (w : Writer.PdfWriter)
    (parent_map : gmap Z Z) : Prop :=
  forall l id, parent_map !! l = Some id ->
    Z.of_nat base <= id < Z.of_nat (length (Writer.outline w)).

(** A method lets no exception escape. *)
Definition never_raises {A : Type} (m : M A) : Prop :=
  forall st e, snd (m st) <> Raise e.

(** A method makes at most [n] calls to the model. *)
Definition calls_within {A : Type} (n : nat) (m : M A) : Prop :=
  forall st, (calls st <= calls (fst (m st)) <= calls st + n)%nat.

(** A method makes at most [n] calls to the model when it returns and at
    most [n_raise] calls when it raises. *)
Definition calls_bounded {A : Type} (n n_raise : nat) (m : M A) : Prop :=
  forall st,
    (calls st <= calls (fst (m st)))%nat
    /\ (calls (fst (m st))
        <= calls st + match snd (m st) with
                      | Raise _ => n_raise
                      | _ => n
                      end)%nat.

(** The number of pages of a 1-based range that lie in the file of
    [world]. *)
Definition range_cost (world : World) (range : Z * Z) : nat :=
  length (clipped (default [] (pdf_pages world)) range).

(** * Properties *)

(** ** Text *)

Lemma lstrip_idem (s : text) : lstrip (lstrip s) = lstrip s.
Proof.
  induction s as [|c s IH]; simpl; [reflexivity|].
  destruct (is_space c) eqn:E; [exact IH|].
  simpl. rewrite E. reflexivity.
Qed.

Lemma lstrip_app (a b : text) :
  lstrip (a ++ b) = match lstrip a with
                    | [] => lstrip b
                    | c :: r => (c :: r) ++ b
                    end.
Proof.
  induction a as [|c a IH]; simpl; [reflexivity|].
  destruct (is_space c); [exact IH | reflexivity].
Qed.

Lemma rstrip_cons (c : ascii) (s : text) :
  rstrip (c :: s) = match rstrip s with
                    | [] => if is_space c then [] else [c]
                    | d :: r => c :: d :: r
                    end.
Proof.
  unfold rstrip. simpl rev at 2. rewrite lstrip_app.
  destruct (lstrip (rev s)) as [|d r] eqn:E.
  - simpl. destruct (is_space c); reflexivity.
  - destruct (rev (d :: r)) as [|d' r'] eqn:E'.
    + apply (f_equal (@length ascii)) in E'.
      rewrite length_rev in E'. discriminate.
    + rewrite rev_app_distr. simpl. rewrite <- E'. reflexivity.
Qed.

Lemma rstrip_idem (s : text) : rstrip (rstrip s) = rstrip s.
Proof.
  unfold rstrip. rewrite rev_involutive, lstrip_idem. reflexivity.
Qed.

Lemma lstrip_rstrip (s : text) : lstrip (rstrip s) = rstrip (lstrip s).
Proof.
  induction s as [|c s IH]; [reflexivity|].
  rewrite rstrip_cons. simpl lstrip at 2.
  destruct (is_space c) eqn:E.
  - rewrite <- IH. destruct (rstrip s) as [|d r]; simpl; rewrite ?E; reflexivity.
  - rewrite rstrip_cons.
    destruct (rstrip s) as [|d r]; simpl; rewrite E; reflexivity.
Qed.

Lemma strip_idem (s : text) : strip (strip s) = strip s.
Proof.
  unfold strip. rewrite lstrip_rstrip, lstrip_idem, rstrip_idem. reflexivity.
Qed.

Lemma ascii_eqb_eq (a b : ascii) : ascii_eqb a b = true <-> a = b.
Proof.
  unfold ascii_eqb, code. rewrite N.eqb_eq. split; [|congruence].
  intros E. rewrite <- (ascii_N_embedding a), <- (ascii_N_embedding b).
  congruence.
Qed.

Lemma text_eqb_eq (a b : text) : text_eqb a b = true <-> a = b.
Proof.
  revert b. induction a as [|x a IH]; intros [|y b]; simpl;
    try (split; [discriminate || reflexivity | discriminate || reflexivity]).
  rewrite andb_true_iff, ascii_eqb_eq, IH. split.
  - intros [-> ->]. reflexivity.
  - intros E. injection E. auto.
Qed.

Lemma text_eqb_nil (a : text) : text_eqb a [] = false <-> a <> [].
Proof.
  destruct a; simpl; split; congruence.
Qed.

Lemma lstrip_head (s : text) (c : ascii) (r : text) :
  lstrip s = c :: r -> is_space c = false.
Proof.
  induction s as [|x s IH]; simpl; [discriminate|].
  destruct (is_space x) eqn:E; [exact IH|].
  intros E'. injection E' as <- _. exact E.
Qed.

Lemma strip_head (s : text) (c : ascii) (r : text) :
  strip s = c :: r -> is_space c = false.
Proof.
  unfold strip. rewrite <- lstrip_rstrip. apply lstrip_head.
Qed.

Lemma split_on_nonempty (sep : ascii) (s : text) : split_on sep s <> [].
Proof.
  induction s as [|c s IH]; simpl; [discriminate|].
  destruct (ascii_eqb c sep); [discriminate|].
  destruct (split_on sep s); [contradiction | discriminate].
Qed.

Lemma split_on_app (sep : ascii) (a b : text) :
  split_on sep (a ++ sep :: b) = split_on sep a ++ split_on sep b.
Proof.
  induction a as [|x a IH]; simpl.
  - assert (E : ascii_eqb sep sep = true) by (apply ascii_eqb_eq; reflexivity).
    rewrite E. reflexivity.
  - destruct (ascii_eqb x sep); rewrite IH; [reflexivity|].
    pose proof (split_on_nonempty sep a) as Hne.
    destruct (split_on sep a); [contradiction | reflexivity].
Qed.

Lemma split_on_line (sep : ascii) (a : text) :
  existsb (fun c => ascii_eqb c sep) a = false -> split_on sep a = [a].
Proof.
  induction a as [|x a IH]; simpl; [reflexivity|].
  destruct (ascii_eqb x sep); simpl; [discriminate|].
  intros E. rewrite (IH E). reflexivity.
Qed.

Lemma join_split (sep : ascii) (s : text) :
  join [sep] (split_on sep s) = s.
Proof.
  induction s as [|x s IH]; simpl; [reflexivity|].
  pose proof (split_on_nonempty sep s) as Hne.
  destruct (ascii_eqb x sep) eqn:E.
  - apply ascii_eqb_eq in E as ->.
    destruct (split_on sep s) as [|p rest]; [contradiction|].
    change (join [sep] ([] :: p :: rest))
      with ([] ++ [sep] ++ join [sep] (p :: rest)).
    rewrite IH. reflexivity.
  - destruct (split_on sep s) as [|p rest]; [contradiction|].
    destruct rest as [|q rest]; [simpl in *; congruence|].
    change (join [sep] ((x :: p) :: q :: rest))
      with (x :: (p ++ [sep] ++ join [sep] (q :: rest))).
    change (join [sep] (p :: q :: rest))
      with (p ++ [sep] ++ join [sep] (q :: rest)) in IH.
    rewrite IH. reflexivity.
Qed.

Lemma strip_fixed (c d : ascii) (mid : text) :
  is_space c = false -> is_space d = false ->
  strip (c :: mid ++ [d]) = c :: mid ++ [d].
Proof.
  intros Hc Hd. unfold strip. simpl. rewrite Hc.
  unfold rstrip. change (c :: mid ++ [d]) with ((c :: mid) ++ [d]).
  rewrite rev_app_distr. simpl. rewrite Hd. simpl.
  rewrite rev_app_distr, rev_involutive. reflexivity.
Qed.

(** ** Regular expressions *)

Module ReFacts.
Import Re.

Lemma run_eq (fuel : nat) (r : regex) (s : text) (caps : captures)
    (k : text -> captures -> res) :
  run fuel r s caps k =
  match r with
  | Eps => k s caps
  | Chr p =>
      match s with
      | c :: s' => if p c then k s' caps else NoMatch
      | [] => NoMatch
      end
  | Seq a b => run fuel a s caps (fun s' caps' => run fuel b s' caps' k)
  | Group n a =>
      run fuel a s caps (fun s' caps' =>
        k s' ((n, firstn (length s - length s') s) :: caps'))
  | Eos => if at_end s then k s caps else NoMatch
  | Star greedy a =>
      match fuel with
      | O => OutOfFuel
      | S f =>
          let again (_ : unit) :=
            run fuel a s caps (fun s' caps' =>
              if (length s' <? length s)%nat
              then run f (Star greedy a) s' caps' k
              else NoMatch) in
          if greedy
          then match again tt with
               | NoMatch => k s caps
               | r => r
               end
          else match k s caps with
               | NoMatch => again tt
               | r => r
               end
      end
  end.
Proof. destruct fuel; destruct r; reflexivity. Qed.

(** With the fuel of [re_match] the matcher never runs out: [None] is
    a failed match. *)
Lemma run_decides (fuel : nat) : forall (r : regex) (s : text) (caps : captures)
    (k : text -> captures -> res),
  (length s < fuel)%nat ->
  (forall s' caps', (length s' <= length s)%nat -> k s' caps' <> OutOfFuel) ->
  run fuel r s caps k <> OutOfFuel.
Proof.
  induction fuel as [|f IHf]; [intros; lia|].
  induction r as [|p|a IHa b IHb|g a IHa|n a IHa|]; intros s caps k Hlen Hk;
    rewrite run_eq.
  - apply Hk. lia.
  - destruct s as [|c s']; [discriminate|].
    destruct (p c); [apply Hk; simpl; lia | discriminate].
  - apply IHa; [exact Hlen|]. intros s' caps' Hs'.
    apply IHb; [lia|]. intros s'' caps'' Hs''. apply Hk. lia.
  - set (again := run (S f) a s caps _).
    assert (Hagain : again <> OutOfFuel).
    { apply IHa; [exact Hlen|]. intros s' caps' Hs'.
      destruct (length s' <? length s)%nat eqn:E; [|discriminate].
      apply Nat.ltb_lt in E. apply IHf; [lia|].
      intros s'' caps'' Hs''. apply Hk. lia. }
    assert (Hstop : k s caps <> OutOfFuel) by (apply Hk; lia).
    simpl. destruct g.
    + destruct again; congruence.
    + destruct (k s caps); congruence.
  - apply IHa; [exact Hlen|]. intros s' caps' Hs'. apply Hk. exact Hs'.
  - destruct (at_end s); [apply Hk; lia | discriminate].
Qed.

Lemma re_match_none (r : regex) (s : text) :
  re_match r s = None <-> run (S (length s)) r s [] accept = NoMatch.
Proof.
  unfold re_match.
  pose proof (run_decides (S (length s)) r s [] accept) as Hd.
  destruct (run (S (length s)) r s [] accept) eqn:E; split; try discriminate;
    try reflexivity.
  exfalso. apply Hd; [lia | discriminate | reflexivity].
Qed.

Lemma run_keeps_step (n : nat) (t : text) (fuel : nat) :
  (forall f, fuel = S f -> forall r k,
      no_group n r = true -> keeps n t k ->
      keeps n t (fun s' caps' => run f r s' caps' k)) ->
  forall (r : regex) (k : text -> captures -> res),
    no_group n r = true -> keeps n t k ->
    keeps n t (fun s' caps' => run fuel r s' caps' k).
Proof.
  intros Hstar.
  induction r as [|p|a IHa b IHb|g a IHa|m a IHa|];
    intros k Hng Hk s caps rest caps' Hcaps; rewrite run_eq;
    simpl in Hng.
  - apply Hk. exact Hcaps.
  - destruct s as [|c s']; [discriminate|].
    destruct (p c); [apply Hk; exact Hcaps | discriminate].
  - apply andb_true_iff in Hng as [Hna Hnb].
    apply (IHa _ Hna (IHb k Hnb Hk)). exact Hcaps.
  - destruct fuel as [|f]; [discriminate|].
    cbv zeta.
    match goal with
    | |- context [run (S f) a s caps ?K] => set (k' := K)
    end.
    assert (Hk' : keeps n t k').
    { intros s1 c1 rest1 c1' Hc1. unfold k'.
      destruct (length s1 <? length s)%nat; [|discriminate].
      apply (Hstar f eq_refl (Star g a) k Hng Hk). exact Hc1. }
    pose proof (IHa k' Hng Hk' s caps) as Hagain.
    destruct g.
    + destruct (run (S f) a s caps k') eqn:E; try discriminate.
      * intros E'. injection E' as <- <-. eapply Hagain; [exact Hcaps | reflexivity].
      * apply Hk. exact Hcaps.
    + destruct (k s caps) eqn:E; try discriminate.
      * intros E'. injection E' as <- <-. eapply Hk; eassumption.
      * apply Hagain. exact Hcaps.
  - apply andb_true_iff in Hng as [Hna Hnb].
    apply (IHa _ Hnb); [|exact Hcaps].
    intros s1 c1 rest1 c1' Hc1. apply Hk. simpl.
    apply negb_true_iff in Hna. rewrite Hna. exact Hc1.
  - destruct (at_end s); [apply Hk; exact Hcaps | discriminate].
Qed.

Lemma run_keeps (n : nat) (t : text) (fuel : nat) :
  forall (r : regex) (k : text -> captures -> res),
    no_group n r = true -> keeps n t k ->
    keeps n t (fun s' caps' => run fuel r s' caps' k).
Proof.
  induction fuel as [|f IHf]; apply run_keeps_step.
  - intros f E. discriminate.
  - intros f' E. injection E as <-. exact IHf.
Qed.

End ReFacts.

(** ** Deduplication and sorting *)

Section Dedup.
Context {A K : Type} `{Countable K} (key : A -> K).

Lemma dedup_by_fresh (seen : gset K) (xs : list A) :
  Forall (fun x => key x ∉ seen) (dedup_by key seen xs).
Proof.
  revert seen. induction xs as [|x xs IH]; intros seen; simpl.
  - constructor.
  - destruct (decide (key x ∈ seen)) as [Hin|Hout]; [apply IH|].
    constructor; [exact Hout|].
    eapply Forall_impl; [apply IH|]. simpl. set_solver.
Qed.

Lemma dedup_by_subset (seen seen' : gset K) (xs : list A) :
  seen' ⊆ seen ->
  dedup_by key seen' (dedup_by key seen xs) = dedup_by key seen xs.
Proof.
  revert seen seen'. induction xs as [|x xs IH]; intros seen seen' Hsub; simpl.
  - reflexivity.
  - destruct (decide (key x ∈ seen)) as [Hin|Hout]; [apply IH; exact Hsub|].
    simpl. destruct (decide (key x ∈ seen')) as [Hin'|Hout'].
    + exfalso. apply Hout. set_solver.
    + f_equal. apply IH. set_solver.
Qed.

Lemma dedup_by_idem (xs : list A) :
  dedup_by key ∅ (dedup_by key ∅ xs) = dedup_by key ∅ xs.
Proof. apply dedup_by_subset. set_solver. Qed.

Lemma dedup_by_sublist (seen : gset K) (xs : list A) (x : A) :
  x ∈ dedup_by key seen xs -> x ∈ xs.
Proof.
  revert seen. induction xs as [|y xs IH]; intros seen; simpl.
  - auto.
  - destruct (decide (key y ∈ seen)).
    + intros Hx. right. eapply IH, Hx.
    + intros Hx. apply elem_of_cons in Hx as [->|Hx]; [left|right; eapply IH, Hx].
Qed.

Lemma dedup_by_Forall (P : A -> Prop) (seen : gset K) (xs : list A) :
  Forall P xs -> Forall P (dedup_by key seen xs).
Proof.
  rewrite !Forall_forall. intros HP x Hx. eapply HP, dedup_by_sublist, Hx.
Qed.


End Dedup.



Lemma dedup_by_NoDup {A K : Type} `{Countable K} (key : A -> K)
    (seen : gset K) (xs : list A) :
  NoDup (map key (dedup_by key seen xs)).
Proof.
  revert seen. induction xs as [|x xs IH]; intros seen; simpl.
  - constructor.
  - destruct (decide (key x ∈ seen)); [apply IH|].
    simpl. constructor; [|apply IH].
    intros Hin. apply list_elem_of_fmap in Hin as (y & Hy & Hin).
    pose proof (dedup_by_fresh key ({[key x]} ∪ seen) xs) as Hfresh.
    rewrite Forall_forall in Hfresh. apply (Hfresh y Hin).
    rewrite <- Hy. set_solver.
Qed.

Lemma insert_by_perm {A : Type} (key : A -> Z) x xs :
  insert_by key x xs ≡ₚ x :: xs.
Proof.
  induction xs as [|y xs IH]; simpl; [reflexivity|].
  destruct (key x <=? key y); [reflexivity|].
  rewrite IH. apply Permutation_swap.
Qed.

Lemma sort_by_perm {A : Type} (key : A -> Z) (xs : list A) :
  sort_by key xs ≡ₚ xs.
Proof.
  induction xs as [|x xs IH]; simpl; [reflexivity|].
  rewrite insert_by_perm, IH. reflexivity.
Qed.

Lemma insert_by_sorted {A : Type} (key : A -> Z) x xs :
  Sorted (fun a b => key a <= key b) xs ->
  Sorted (fun a b => key a <= key b) (insert_by key x xs).
Proof.
  induction 1 as [|y ys Hys IH Hhd]; simpl.
  - repeat constructor.
  - destruct (key x <=? key y) eqn:E.
    + apply Z.leb_le in E. repeat constructor; assumption.
    + apply Z.leb_gt in E. constructor; [exact IH|].
      destruct ys as [|z zs]; simpl.
      * constructor. lia.
      * destruct (key x <=? key z); constructor; [lia|].
        inversion Hhd. assumption.
Qed.

Lemma sort_by_sorted {A : Type} (key : A -> Z) (xs : list A) :
  Sorted (fun a b => key a <= key b) (sort_by key xs).
Proof.
  induction xs as [|x xs IH]; simpl; [constructor|].
  apply insert_by_sorted, IH.
Qed.

(** ** Entry validator *)

Section ValidatorFacts.
Context `{PyBuiltins}.



(** The loop body on a dict that has the three fields. *)
Lemma validate_item_fields d t p l (m : Z) :
  dict_get (str "title") d = Some t ->
  dict_get (str "page") d = Some p ->
  dict_get (str "level") d = Some l ->
  validate_item (VDict d) m =
  drop_on_conversion_error (
    page ← coerce_int p;
    if out_of_range (int_val page) m then Ret Drop
    else if text_eqb (strip (py_str t)) [] then Ret Drop
    else level ← coerce_int l;
         Ret (Keep {| title := strip (py_str t); page := page;
                      level := Z.min 6 (Z.max 1 (int_val level)) |})).
Proof. intros Ht Hp Hl. unfold validate_item. rewrite Ht, Hp, Hl. reflexivity. Qed.

Lemma validate_item_keep item (m : Z) e :
  validate_item item m = Ret (Keep e) -> valid_entry m e.
Proof.
  unfold validate_item.
  destruct item as [| | | | |?|d]; try discriminate.
  destruct (dict_get (str "title") d) as [t|]; [|discriminate].
  destruct (dict_get (str "page") d) as [p|]; [|discriminate].
  destruct (dict_get (str "level") d) as [l|]; [|discriminate].
  destruct (coerce_int p) as [pg|[]|]; simpl; try discriminate.
  destruct (out_of_range (int_val pg) m) eqn:Erange; simpl; [discriminate|].
  destruct (text_eqb (strip (py_str t)) []) eqn:Etitle; simpl; [discriminate|].
  destruct (coerce_int l) as [lv|[]|]; simpl; try discriminate.
  intros E. injection E as <-. unfold valid_entry. simpl.
  split; [exact Erange|]. split; [apply strip_idem|].
  split; [apply text_eqb_nil; exact Etitle | lia].
Qed.

Lemma validate_items_valid items (m : Z) es :
  validate_items items m = Ret es -> Forall (valid_entry m) es.
Proof.
  revert es. induction items as [|item items IH]; intros es; simpl.
  - intros E. injection E as <-. constructor.
  - destruct (validate_item item m) as [v|?|] eqn:Ev; simpl; try discriminate.
    destruct (validate_items items m) as [es'|?|]; simpl; try discriminate.
    intros E. injection E as <-.
    destruct v as [e|]; [|apply IH; reflexivity].
    constructor; [eapply validate_item_keep, Ev | apply IH; reflexivity].
Qed.

(** A valid entry, read back as a dict, validates to itself. *)
Lemma validate_item_fixed (m : Z) e :
  valid_entry m e -> validate_item (pyval_of_entry e) m = Ret (Keep e).
Proof.
  intros (Hrange & Hstrip & Hne & Hlevel).
  unfold pyval_of_entry.
  rewrite (validate_item_fields _ (VStr (title e)) (pyval_of_pyint (page e))
             (VInt (level e))) by reflexivity.
  assert (Hpage : coerce_int (pyval_of_pyint (page e)) = Ret (page e))
    by (destruct (page e); reflexivity).
  rewrite Hpage. simpl. rewrite Hrange. simpl. rewrite Hstrip.
  apply text_eqb_nil in Hne. rewrite Hne. simpl.
  destruct e as [t p l]. simpl in *. do 3 f_equal. lia.
Qed.

Lemma validate_items_fixed (m : Z) es :
  Forall (valid_entry m) es ->
  validate_items (map pyval_of_entry es) m = Ret es.
Proof.
  induction 1 as [|e es He Hes IH]; [reflexivity|].
  cbn [map validate_items].
  rewrite (validate_item_fixed m e He), IH. reflexivity.
Qed.

Lemma validate_toc_data_valid toc_data (m : Z) out :
  validate_toc_data toc_data m = Ret out -> Forall (valid_entry m) out.
Proof.
  unfold validate_toc_data.
  destruct toc_data as [| | | | |items|];
    try (intros E; injection E as <-; constructor).
  destruct (validate_items items m) as [es|?|] eqn:E; simpl; try discriminate.
  intros E'. injection E' as <-.
  apply dedup_by_Forall. eapply validate_items_valid, E.
Qed.



(** C8: validation with deduplication is idempotent: validating the
    result of [validate_toc_data xs m] again, with the same bound,
    returns the same list in the same order (and a first validation
    that raises has no result to validate again). *)
Theorem validate_toc_data_idempotent (xs : pyval) (m : Z) :
  (ys ← validate_toc_data xs m; validate_toc_data (pyval_of_entries ys) m)
  = validate_toc_data xs m.
Proof.
  destruct (validate_toc_data xs m) as [ys|e|] eqn:E; simpl; try reflexivity.
  pose proof (validate_toc_data_valid _ _ _ E) as Hvalid.
  unfold pyval_of_entries. cbn [validate_toc_data].
  rewrite (validate_items_fixed m ys Hvalid). simpl. f_equal.
  unfold validate_toc_data in E.
  destruct xs as [| | | | |items|]; try (injection E as <-; reflexivity).
  destruct (validate_items items m) as [es|?|]; simpl in E; try discriminate.
  injection E as <-. apply dedup_by_idem.
Qed.

End ValidatorFacts.


(** ** Outline builder *)

Module WriterFacts.
Import Writer.

Section BuilderFacts.
Variable pypdf_raises : text -> Z -> bool.

Abbreviation step := (bookmark_step pypdf_raises).
Abbreviation node := (becomes_node pypdf_raises).



(** One iteration, by whether the entry becomes a node. *)
Lemma step_node (w : PdfWriter) parent_map (e : TocEntry) :
  node (num_pages w) e = true ->
  step (w, parent_map) e =
  ({| num_pages := num_pages w;
      outline := outline w
        ++ [{| o_title := title e; o_page := int_val (page e);
               o_parent := find_parent parent_map (level e) |}];
      outline_root := outline_root w |},
   <[ level e := Z.of_nat (length (outline w)) ]> parent_map).
Proof.
  unfold becomes_node, bookmark_step, add_outline_item.
  intros Hn. apply andb_true_iff in Hn as [Hpage Hrej].
  apply negb_true_iff in Hpage, Hrej. rewrite Hpage, Hrej.
  destruct (Z.of_nat (length (outline w)) =? -1) eqn:E;
    [apply Z.eqb_eq in E; lia | reflexivity].
Qed.

Lemma step_skip (w : PdfWriter) parent_map (e : TocEntry) :
  node (num_pages w) e = false -> step (w, parent_map) e = (w, parent_map).
Proof.
  unfold becomes_node, bookmark_step, add_outline_item.
  intros Hn. apply andb_false_iff in Hn as [Hpage|Hrej].
  - apply negb_false_iff in Hpage. rewrite Hpage. reflexivity.
  - apply negb_false_iff in Hrej. rewrite Hrej.
    destruct (_ || _); reflexivity.
Qed.




(** The items a run of the loop adds: one for each entry that becomes a
    node, in order, after the items the writer held. *)
Lemma fold_created (items : list TocEntry) (w : PdfWriter) parent_map :
  let w' := fst (fold_left step items (w, parent_map)) in
  num_pages w' = num_pages w
  /\ outline_root w' = outline_root w
  /\ exists created,
       outline w' = outline w ++ created
       /\ map item_target created
          = map entry_target
              (filter (fun e => node (num_pages w) e = true) items).
Proof.
  revert w parent_map. induction items as [|e items IH]; intros w parent_map.
  - simpl. split; [reflexivity|]. split; [reflexivity|].
    exists []. rewrite app_nil_r. auto.
  - cbn [fold_left]. rewrite filter_cons.
    destruct (node (num_pages w) e) eqn:Hn.
    + rewrite (step_node _ _ _ Hn).
      destruct (decide (true = true)) as [_|]; [|congruence].
      edestruct IH as (-> & -> & created & -> & Hc). cbn [num_pages outline
        outline_root].
      split; [reflexivity|]. split; [reflexivity|].
      eexists. rewrite <- app_assoc. split; [reflexivity|].
      cbn [app map]. rewrite Hc. reflexivity.
    + rewrite (step_skip _ _ _ Hn).
      destruct (decide (false = true)) as [|_]; [congruence|]. apply IH.
Qed.

Lemma fold_targets (items : list TocEntry) (w : PdfWriter) parent_map :
  let w' := fst (fold_left step items (w, parent_map)) in
  num_pages w' = num_pages w
  /\ map item_target (outline w')
     = map item_target (outline w)
       ++ map entry_target (filter (fun e => node (num_pages w) e = true) items).
Proof.
  destruct (fold_created items w parent_map) as (Hn & _ & created & Ho & Hc).
  cbv zeta. split; [exact Hn|]. rewrite Ho, map_app, Hc. reflexivity.
Qed.

End BuilderFacts.



(** C10, as the code behaves: [create_bookmarks_from_toc] does not empty
    the outline. Its first statement sets the attribute [outline_root],
    which pypdf does not read; after the call the outline holds the
    items it held before, followed by the nodes created from
    [toc_data]. A second call on the same writer, here for the entry
    "SECOND" after a call for "FIRST", leaves both in the outline. *)
Theorem create_bookmarks_keeps_outline :
  (forall (pypdf_raises : text -> Z -> bool) (w : PdfWriter)
          (toc_data : list TocEntry),
      exists w' created,
        create_bookmarks_from_toc pypdf_raises (Some w) toc_data
        = (true, Some w')
        /\ outline_root w' = Some []
        /\ outline w' = outline w ++ created
        /\ map item_target created
           = map entry_target
               (filter (fun e => becomes_node pypdf_raises (num_pages w) e
                                 = true)
                       toc_data))
  /\ (let loaded := {| num_pages := 2; outline := [];
                       outline_root := None |} in
      let first := {| num_pages := 2; outline := [item "FIRST" 0 None];
                      outline_root := Some [] |} in
      create_bookmarks_from_toc (fun _ _ => false) (Some loaded)
        [entry "FIRST" 0 1]
      = (true, Some first)
      /\ create_bookmarks_from_toc (fun _ _ => false) (Some first)
           [entry "SECOND" 1 1]
         = (true,
            Some {| num_pages := 2;
                    outline := [item "FIRST" 0 None; item "SECOND" 1 None];
                    outline_root := Some [] |})).
Proof.
  split; [|split; vm_compute; reflexivity].
  intros pypdf_raises w toc_data. unfold create_bookmarks_from_toc.
  set (w0 := {| num_pages := num_pages w; outline := outline w;
                outline_root := Some [] |}).
  pose proof (fold_created pypdf_raises toc_data w0 ∅)
    as (_ & Hroot & created & Ho & Hc).
  destruct (fold_left (bookmark_step pypdf_raises) toc_data (w0, ∅))
    as [w' pm'].
  exists w', created. cbn [fst] in *. auto.
Qed.

End WriterFacts.

(** ** Pattern fallback extractor *)

Module SimpleFacts.
Import Re ReFacts Simple.

(** The indentation group is always empty: the line is stripped before
    it is matched. *)
Lemma toc_line_indent_empty (line rest : text) (caps : captures) :
  re_match toc_line_pattern (strip line) = Some (rest, caps) ->
  grp 1 caps = [].
Proof.
  destruct (strip line) as [|c s] eqn:E; [vm_compute; discriminate|].
  apply strip_head in E. unfold re_match.
  set (fuel := S (length (c :: s))).
  unfold toc_line_pattern.
  rewrite run_eq, run_eq, run_eq. unfold fuel at 1. cbv zeta.
  rewrite (run_eq fuel (Chr is_space)), E, Nat.sub_diag. cbn [firstn].
  match goal with
  | |- match ?X with _ => _ end = _ -> _ =>
      destruct X as [rest' caps'| |] eqn:R; try discriminate
  end.
  intros E'. injection E' as <- <-. unfold grp.
  erewrite (run_keeps 1 [] fuel after_indent accept eq_refl);
    [reflexivity | | | exact R]; [|reflexivity].
  intros s1 c1 rest1 c1' Hc1 Ha. injection Ha as _ <-. exact Hc1.
Qed.

Lemma parse_line_counts_groups (page_offset : Z) (line : text) (e : TocEntry) :
  parse_line page_offset line = Some e ->
  exists rest caps,
    re_match toc_line_pattern (strip line) = Some (rest, caps)
    /\ level e = Z.of_nat (length (split_on "." (grp 2 caps))).
Proof.
  unfold parse_line.
  destruct (text_eqb (strip line) []); [discriminate|].
  destruct (re_match toc_line_pattern (strip line)) as [[rest caps]|] eqn:E;
    [|discriminate].
  destruct (max_str_digits <? _)%nat; [discriminate|].
  intros E'. injection E' as <-. exists rest, caps. split; [reflexivity|].
  simpl. rewrite (toc_line_indent_empty line rest caps E).
  unfold line_level. simpl.
  pose proof (split_on_nonempty "." (grp 2 caps)) as Hne.
  destruct (split_on "." (grp 2 caps)); [contradiction|]. simpl length. lia.
Qed.



(** X2: the result of the fallback is in ascending page order and holds
    no pair of a title and a page twice. *)
Lemma simple_parsing_sorted_unique (toc_text : text) (page_offset : Z) :
  let result := _extract_toc_with_simple_parsing toc_text page_offset in
  Sorted (fun a b => int_val (page a) <= int_val (page b)) result
  /\ NoDup (map entry_key result).
Proof.
  unfold _extract_toc_with_simple_parsing.
  destruct (omap (parse_line page_offset) (split_on newline toc_text))
    as [|e0 rest]; simpl; [split; constructor|].
  split; [apply (sort_by_sorted (fun x => int_val (page x)))|].
  rewrite (sort_by_perm (fun x => int_val (page x))).
  apply (dedup_by_NoDup entry_key ∅ (e0 :: rest)).
Qed.

(** C2: on the three lines "1. Intro  1", "1.1 Scope  2" and
    "2. Methods  10" the extractor returns one entry, for the second
    line: a numbering that ends in a dot ("1.", "2.") is not followed by
    white space, so the first and the third line do not match the
    pattern. *)
Theorem simple_parsing_three_lines :
  _extract_toc_with_simple_parsing
    (lit "1. Intro  1|1.1 Scope  2|2. Methods  10") 0
  = [{| title := str "Scope"; page := IInt 2; level := 2 |}].
Proof. vm_compute. reflexivity. Qed.

(** C6, as the specification states it: the title is "Background". *)
Lemma simple_parsing_keeps_leaders :
  _extract_toc_with_simple_parsing (str "  2.1 Background ... 12") 0
  <> [{| title := str "Background"; page := IInt 12; level := 2 |}].
Proof. vm_compute. discriminate. Qed.

(** C6: the line "  2.1 Background ... 12" yields exactly one entry,
    with the title "Background ..." (the text between the numbering and
    the page number, leader dots included), page 12 and level 2; with
    the offset 3 the page is 15. *)
Theorem simple_parsing_background_line :
  _extract_toc_with_simple_parsing (str "  2.1 Background ... 12") 0
  = [{| title := str "Background ..."; page := IInt 12; level := 2 |}]
  /\ _extract_toc_with_simple_parsing (str "  2.1 Background ... 12") 3
     = [{| title := str "Background ..."; page := IInt 15; level := 2 |}].
Proof. split; vm_compute; reflexivity. Qed.

(** C7: the line "    1 Intro 5" has four leading blanks and one
    numbering group, and gets level 1: the line is stripped before it is
    matched, so the indentation never reaches the level. *)
Theorem simple_parsing_ignores_indent :
  _extract_toc_with_simple_parsing (str "    1 Intro 5") 0
  = [{| title := str "Intro"; page := IInt 5; level := 1 |}].
Proof. vm_compute. reflexivity. Qed.

End SimpleFacts.

(** ** Response parser *)

Module ParserFacts.
Import Re ReFacts Parser.

Lemma find_app_absent (c : ascii) (pre s : text) :
  find c pre = None ->
  find c (pre ++ s) = option_map (fun i => (length pre + i)%nat) (find c s).
Proof.
  induction pre as [|x pre IH]; simpl.
  - intros _. destruct (find c s); reflexivity.
  - destruct (ascii_eqb x c); [discriminate|].
    destruct (find c pre); [discriminate|]. intros _.
    rewrite IH by reflexivity. destruct (find c s); reflexivity.
Qed.

Lemma rfind_app (c : ascii) (s post : text) :
  rfind c (s ++ post) = match rfind c post with
                        | Some i => Some (length s + i)%nat
                        | None => rfind c s
                        end.
Proof.
  induction s as [|x s IH]; simpl.
  - destruct (rfind c post); reflexivity.
  - rewrite IH. destruct (rfind c post); reflexivity.
Qed.

Lemma rfind_last (c : ascii) (s : text) :
  rfind c (s ++ [c]) = Some (length s).
Proof.
  rewrite rfind_app. simpl.
  assert (E : ascii_eqb c c = true) by (apply ascii_eqb_eq; reflexivity).
  rewrite E. f_equal. lia.
Qed.

Lemma find_app_present (c : ascii) (s post : text) (i : nat) :
  find c s = Some i -> find c (s ++ post) = Some i.
Proof.
  revert i. induction s as [|x s IH]; intros i; simpl; [discriminate|].
  destruct (ascii_eqb x c); [auto|].
  destruct (find c s) as [j|]; [|discriminate].
  rewrite (IH j eq_refl). auto.
Qed.

Lemma bracket_span_of (pre body post : text) :
  find "[" pre = None -> rfind "]" post = None ->
  find "[" body = Some 0%nat ->
  rfind "]" body = Some (length body - 1)%nat ->
  (2 <= length body)%nat ->
  bracket_span (pre ++ body ++ post) = Some body.
Proof.
  intros Hpre Hpost Hfirst Hlast Hlen. unfold bracket_span.
  rewrite (find_app_absent _ _ _ Hpre), (find_app_present _ _ _ _ Hfirst).
  cbn [option_map]. rewrite !rfind_app, Hpost, Hlast.
  destruct (_ <? _)%nat eqn:Elt; [|apply Nat.ltb_ge in Elt; lia].
  f_equal. unfold slice. rewrite Nat.add_0_r, drop_app_length.
  replace (S (length pre + (length body - 1)) - length pre)%nat
    with (length body) by lia.
  apply take_app_length.
Qed.

Lemma bracket_span_embedded (pre mid post : text) :
  find "[" pre = None -> rfind "]" post = None ->
  bracket_span (pre ++ ("[" :: mid ++ ["]"]) ++ post)%char
  = Some ("[" :: mid ++ ["]"])%char.
Proof.
  intros Hpre Hpost. apply bracket_span_of; try assumption.
  - reflexivity.
  - change ("["%char :: mid ++ ["]"%char])
      with (("["%char :: mid) ++ ["]"%char]).
    rewrite rfind_last, length_app. f_equal. simpl. lia.
  - simpl. rewrite length_app. simpl. lia.
Qed.

(** A response that is a code fence around an array, with any language
    tag on the line of the opening fence, is cleaned to the array. *)
Lemma clean_response_fenced (tag mid : text) :
  has_newline tag = false ->
  clean_response
    (fence ++ tag ++ [newline] ++ ("[" :: mid ++ ["]"])%char
       ++ [newline] ++ fence)
  = ("[" :: mid ++ ["]"])%char.
Proof.
  intros Htag. unfold clean_response.
  set (body := ("["%char :: mid ++ ["]"%char])).
  set (whole := fence ++ tag ++ [newline] ++ body ++ [newline] ++ fence).
  assert (Hstrip : strip whole = whole).
  { unfold whole, fence.
    change (str "```" ++ tag ++ [newline] ++ body ++ [newline] ++ str "```")
      with ("`"%char :: (str "``" ++ tag ++ [newline] ++ body ++ [newline] ++ str "```")).
    replace (str "``" ++ tag ++ [newline] ++ body ++ [newline] ++ str "```")
      with ((str "``" ++ tag ++ [newline] ++ body ++ [newline] ++ str "``") ++ ["`"%char]).
    - apply strip_fixed; reflexivity.
    - rewrite <- !app_assoc. reflexivity. }
  rewrite Hstrip.
  assert (Hstart : startswith fence whole = true) by reflexivity.
  assert (Hnl : has_newline whole = true).
  { unfold whole, has_newline. rewrite !existsb_app. simpl.
    rewrite !orb_true_r. reflexivity. }
  rewrite Hstart, Hnl. cbn [andb].
  assert (Hlines : split_on newline whole
                   = (fence ++ tag) :: split_on newline body ++ [fence]).
  { unfold whole.
    replace (fence ++ tag ++ [newline] ++ body ++ [newline] ++ fence)
      with ((fence ++ tag) ++ newline :: (body ++ newline :: fence))
      by (rewrite <- !app_assoc; reflexivity).
    rewrite !split_on_app.
    rewrite (split_on_line newline (fence ++ tag)).
    - reflexivity.
    - rewrite existsb_app. fold (has_newline tag). rewrite Htag. reflexivity. }
  rewrite Hlines.
  pose proof (split_on_nonempty newline body) as Hne.
  match goal with
  | |- context [(3 <=? ?n)%nat] =>
      assert (Hlen : (3 <=? n)%nat = true)
  end.
  { apply Nat.leb_le. cbn [length]. rewrite length_app. cbn [length].
    destruct (split_on newline body); [contradiction|]. cbn [length]. lia. }
  rewrite Hlen.
  match goal with
  | |- context [@List.last ?A ?l ?d] =>
      replace (@List.last A l d) with fence
  end.
  2:{ change ((fence ++ tag) :: split_on newline body ++ [fence])
        with (((fence ++ tag) :: split_on newline body) ++ [fence]).
      symmetry. apply last_last. }
  assert (Hf : text_eqb (strip fence) fence = true) by reflexivity.
  rewrite Hf. cbn [andb]. unfold inner. cbn [tl].
  rewrite removelast_last, join_split.
  assert (Hbody : strip body = body) by (apply strip_fixed; reflexivity).
  rewrite Hbody. reflexivity.
Qed.

(** C3, as the specification states it: here a well-formed array of one
    entry stands after a prose that has a bracket of its own, and the
    title of the entry has a closing brace; the parser returns the empty
    list. *)
Lemma parse_llm_response_misses_array :
  let body := lit "[{'title':'a}','page':1,'level':1}]" in
  Json.loads body
  = Ret (VList [VDict [(str "title", VStr (str "a}"));
                       (str "page", VInt 1); (str "level", VInt 1)]])
  /\ _parse_llm_response (str "Note [1]: " ++ body) = Ret [].
Proof. split; vm_compute; reflexivity. Qed.

(** A greedy run of characters over [xs ++ rest], where the run can
    take exactly [xs], hands [rest] to the continuation once this
    succeeds there. *)
Lemma star_chars (p : ascii -> bool) (xs : text) :
  forall (fuel : nat) (rest : text) (caps : captures)
         (k : text -> captures -> res) (r : text) (c : captures),
    forallb p xs = true ->
    match rest with x :: _ => p x = false | [] => True end ->
    (length xs < fuel)%nat ->
    k rest caps = Matched r c ->
    run fuel (Star true (Chr p)) (xs ++ rest) caps k = Matched r c.
Proof.
  induction xs as [|x xs IH]; intros fuel rest caps k r c Hxs Hrest Hfuel Hk;
    (destruct fuel as [|f]; [simpl in Hfuel; lia|]);
    rewrite run_eq; cbv zeta; rewrite run_eq.
  - cbn [app]. destruct rest as [|y rest'].
    + exact Hk.
    + rewrite Hrest. exact Hk.
  - cbn [app]. cbn [forallb] in Hxs. apply andb_true_iff in Hxs as [Hx Hxs].
    rewrite Hx.
    assert (Hlt : (length (xs ++ rest) <? length (x :: xs ++ rest))%nat = true)
      by (apply Nat.ltb_lt; simpl; lia).
    rewrite Hlt.
    rewrite (IH f rest caps k r c Hxs Hrest ltac:(simpl in Hfuel; lia) Hk).
    reflexivity.
Qed.

Lemma lit_head (fuel : nat) (c : ascii) (s : text) (caps : captures)
    (k : text -> captures -> res) :
  run fuel (Lit c) (c :: s) caps k = k s caps.
Proof.
  unfold Lit. rewrite run_eq.
  assert (E : ascii_eqb c c = true) by (apply ascii_eqb_eq; reflexivity).
  rewrite E. reflexivity.
Qed.

Lemma lit_head_not (fuel : nat) (c : ascii) (s : text) (caps : captures)
    (k : text -> captures -> res) :
  head_is c s = false -> run fuel (Lit c) s caps k = NoMatch.
Proof.
  unfold Lit. rewrite run_eq. destruct s as [|x s']; [reflexivity|].
  simpl. intros ->. reflexivity.
Qed.

(** White space and then a character that does not follow: no match. *)
Lemma spaces_then_not (c0 : ascii) (s : text) :
  forall (fuel : nat) (caps : captures) (k : text -> captures -> res),
    is_space c0 = false ->
    (forall s1 c1, head_is c0 s1 = false -> k s1 c1 = NoMatch) ->
    head_is c0 (lstrip s) = false ->
    (length s < fuel)%nat ->
    run fuel (Star true (Chr is_space)) s caps k = NoMatch.
Proof.
  induction s as [|x s IH]; intros fuel caps k Hc0 Hk Hs Hfuel;
    (destruct fuel as [|f]; [simpl in Hfuel; lia|]);
    rewrite run_eq; cbv zeta; rewrite run_eq.
  - apply Hk. reflexivity.
  - cbn [lstrip] in Hs. destruct (is_space x) eqn:Ex.
    + assert (Hlt : (length s <? length (x :: s))%nat = true)
        by (apply Nat.ltb_lt; simpl; lia).
      rewrite Hlt, (IH f caps k Hc0 Hk Hs ltac:(simpl in Hfuel; lia)).
      apply Hk. simpl.
      destruct (ascii_eqb x c0) eqn:E; [|reflexivity].
      apply ascii_eqb_eq in E. congruence.
    + apply Hk. exact Hs.
Qed.

Lemma run_object (fuel : nat) (inner rest : text) (caps : captures)
    (k : text -> captures -> res) (r : text) (c : captures) :
  forallb not_rbrace inner = true ->
  (length inner < fuel)%nat ->
  k rest caps = Matched r c ->
  run fuel object_group ("{" :: inner ++ "}" :: rest)%char caps k = Matched r c.
Proof.
  intros Hinner Hfuel Hk. unfold object_group.
  rewrite run_eq, lit_head, run_eq.
  apply star_chars; [exact Hinner | reflexivity | exact Hfuel|].
  rewrite lit_head. exact Hk.
Qed.

Lemma lstrip_spaces (a : text) (c : ascii) (r : text) :
  forallb is_space a = true -> is_space c = false ->
  lstrip (a ++ c :: r) = c :: r.
Proof.
  intros Ha Hc. induction a as [|x a IH]; simpl.
  - rewrite Hc. reflexivity.
  - simpl in Ha. apply andb_true_iff in Ha as [-> Ha]. auto.
Qed.

(** The repetition of the pattern takes the further elements of the
    array and leaves the white space before the closing bracket. *)
Lemma run_more (post : text) (P : captures -> Prop)
    (k : text -> captures -> res) (bound : nat) :
  (forall a caps, forallb is_space a = true -> (length a < bound)%nat ->
     exists caps', k (a ++ "]" :: post)%char caps = Matched post caps' /\ P caps') ->
  forall (more : list array_element) (after : text) (fuel : nat) (caps : captures),
    forallb is_space after = true ->
    forallb flat_element more = true ->
    (length (array_tail after more post) < fuel)%nat ->
    (length (array_tail after more post) <= bound)%nat ->
    exists caps',
      run fuel (Star true more_group) (array_tail after more post) caps k
      = Matched post caps' /\ P caps'.
Proof.
  intros Hk. induction more as [|[[b i] a] more IH];
    intros after fuel caps Hafter Hmore Hfuel Hbound;
    (destruct fuel as [|f]; [lia|]); rewrite run_eq; cbv zeta.
  - cbn [array_tail] in *.
    assert (Hagain : forall K, run (S f) more_group (after ++ "]" :: post)%char caps K
                              = NoMatch).
    { intros K. unfold more_group. rewrite run_eq, run_eq.
      apply (spaces_then_not ","); [reflexivity | | |exact Hfuel].
      - intros s1 c1 Hs1. rewrite run_eq. apply lit_head_not. exact Hs1.
      - rewrite lstrip_spaces by (assumption || reflexivity). reflexivity. }
    rewrite Hagain. apply Hk; [exact Hafter|].
    rewrite length_app in Hbound. simpl in Hbound. lia.
  - cbn [array_tail] in *. cbn [forallb] in Hmore.
    apply andb_true_iff in Hmore as [Hflat Hmore].
    unfold flat_element in Hflat.
    apply andb_true_iff in Hflat as [Hflat Ha].
    apply andb_true_iff in Hflat as [Hb Hi].
    set (s := after ++ ("," :: b ++ "{" :: i ++ "}" :: array_tail a more post)%char) in *.
    assert (Hlen : length s
                   = (length after + S (length b + S (length i
                        + S (length (array_tail a more post)))))%nat).
    { unfold s. rewrite length_app. cbn [length]. rewrite length_app.
      cbn [length]. rewrite length_app. reflexivity. }
    destruct (IH a f
                ((2%nat, firstn (length s - length (array_tail a more post)) s) :: caps)
                Ha Hmore ltac:(lia) ltac:(lia)) as (caps' & Hrun & HP).
    exists caps'. split; [|exact HP].
    assert (Hagain :
      run (S f) more_group s caps
        (fun s' caps' =>
           if (length s' <? length s)%nat
           then run f (Star true more_group) s' caps' k
           else NoMatch)
      = Matched post caps').
    { unfold more_group at 1. rewrite run_eq, run_eq. unfold s at 1.
      apply star_chars; [exact Hafter | reflexivity | lia |].
      rewrite run_eq, lit_head, run_eq.
      apply star_chars; [exact Hb | reflexivity | lia |].
      apply run_object; [exact Hi | lia |].
      assert (Hlt : (length (array_tail a more post) <? length s)%nat = true)
        by (apply Nat.ltb_lt; lia).
      rewrite Hlt. exact Hrun. }
    rewrite Hagain. reflexivity.
Qed.

Lemma array_tail_app (after : text) (more : list array_element) (post : text) :
  array_tail after more [] ++ post = array_tail after more post.
Proof.
  revert after. induction more as [|[[b i] a] more IH]; intros after; simpl.
  - rewrite <- app_assoc. reflexivity.
  - rewrite <- app_assoc. cbn [app]. rewrite <- app_assoc. cbn [app].
    rewrite <- app_assoc. cbn [app]. rewrite IH. reflexivity.
Qed.

(** The pattern matches an array of objects without closing braces
    inside them, and its group 1 is the array. *)
Lemma json_pattern_flat_array (first : array_element)
    (more : list array_element) (post : text) :
  flat_element first = true -> forallb flat_element more = true ->
  exists caps,
    re_match json_pattern (flat_array first more ++ post) = Some (post, caps)
    /\ group 1 caps = Some (flat_array first more).
Proof.
  destruct first as [[b i] a]. intros Hflat Hmore.
  unfold flat_element in Hflat.
  apply andb_true_iff in Hflat as [Hflat Ha].
  apply andb_true_iff in Hflat as [Hb Hi].
  set (body := flat_array (b, i, a) more).
  assert (Ebody : body ++ post
                  = ("[" :: b ++ "{" :: i ++ "}" :: array_tail a more post)%char).
  { unfold body, flat_array. cbn [app]. rewrite <- app_assoc. cbn [app].
    rewrite <- app_assoc. cbn [app]. rewrite array_tail_app. reflexivity. }
  assert (Hlen : length (body ++ post)
                 = S (length b + S (length i + S (length (array_tail a more post))))).
  { rewrite Ebody. cbn [length]. rewrite length_app. cbn [length].
    rewrite length_app. reflexivity. }
  set (k1 := fun (s' : text) (caps' : captures) =>
               accept s' ((1%nat, firstn (length (body ++ post) - length s')
                                         (body ++ post)) :: caps')).
  destruct (run_more post (fun caps => group 1 caps = Some body)
              (fun s c => run (S (length (body ++ post)))
                            (Seq (Star true (Chr is_space)) (Lit "]")) s c k1)
              (length (body ++ post))) with
      (more := more) (after := a) (fuel := S (length (body ++ post)))
      (caps := @nil (nat * text)) as (caps & Hrun & Hgroup);
    [ | exact Ha | exact Hmore | lia | lia | ].
  { intros a' caps Ha' Hbound. eexists. split.
    - rewrite run_eq.
      apply star_chars; [exact Ha' | reflexivity | lia |].
      rewrite lit_head. reflexivity.
    - cbn [group Nat.eqb]. f_equal.
      rewrite length_app.
      replace (length body + length post - length post)%nat
        with (length body) by lia.
      apply take_app_length. }
  exists caps. split; [|exact Hgroup].
  unfold re_match.
  assert (E : run (S (length (body ++ post))) json_pattern (body ++ post) [] accept
              = Matched post caps).
  { unfold json_pattern. rewrite run_eq. fold k1.
    rewrite Ebody at 2. rewrite run_eq, lit_head, run_eq.
    apply star_chars; [exact Hb | reflexivity | lia |].
    rewrite run_eq.
    apply run_object; [exact Hi | lia |].
    rewrite run_eq. exact Hrun. }
  fold body. rewrite E. reflexivity.
Qed.

Lemma json_pattern_needs_bracket (s : text) :
  head_is "[" s = false -> re_match json_pattern s = None.
Proof.
  intros Hs. unfold re_match, json_pattern.
  rewrite run_eq, run_eq, lit_head_not by exact Hs. reflexivity.
Qed.

(** No match starts at a bracket that is not followed, after white
    space, by an opening brace. *)
Lemma json_pattern_needs_brace (s : text) :
  head_is "{" (lstrip s) = false ->
  re_match json_pattern ("[" :: s)%char = None.
Proof.
  intros Hs. unfold re_match, json_pattern.
  rewrite run_eq, run_eq, lit_head, run_eq.
  rewrite (spaces_then_not "{"); [reflexivity | reflexivity | | exact Hs
                                 | simpl; lia].
  intros s1 c1 Hs1. rewrite run_eq. unfold object_group.
  rewrite run_eq. apply lit_head_not. exact Hs1.
Qed.

Lemma findall_skips (pre rest : text) (fuel : nat) :
  opens_no_object pre = true ->
  findall_from (length pre + fuel) json_pattern (pre ++ "[" :: rest)%char
  = findall_from fuel json_pattern ("[" :: rest)%char.
Proof.
  induction pre as [|x pre IH]; intros Hpre; [reflexivity|].
  cbn [opens_no_object] in Hpre. apply andb_true_iff in Hpre as [Hx Hpre].
  cbn [length Nat.add app findall_from].
  assert (Hnone : re_match json_pattern (x :: pre ++ "[" :: rest)%char = None).
  { destruct (ascii_eqb x "[") eqn:Ex.
    - apply ascii_eqb_eq in Ex as ->. apply json_pattern_needs_brace.
      cbn [andb] in Hx. apply negb_true_iff in Hx.
      rewrite lstrip_app. destruct (lstrip pre) as [|c r]; [reflexivity|].
      exact Hx.
    - apply json_pattern_needs_bracket. exact Ex. }
  rewrite Hnone. apply IH, Hpre.
Qed.

(** The first match of the pattern in a text is the array of objects
    that no bracket opening an object precedes. *)
Lemma findall_flat_array (pre post : text) (first : array_element)
    (more : list array_element) :
  opens_no_object pre = true ->
  flat_element first = true -> forallb flat_element more = true ->
  exists caps rest,
    findall json_pattern (pre ++ flat_array first more ++ post) = caps :: rest
    /\ group 1 caps = Some (flat_array first more).
Proof.
  intros Hpre Hfirst Hmore.
  destruct (json_pattern_flat_array first more post Hfirst Hmore)
    as (caps & Hmatch & Hgroup).
  exists caps. unfold findall.
  replace (S (length (pre ++ flat_array first more ++ post)))
    with (length pre + S (length (flat_array first more ++ post)))%nat
    by (rewrite !length_app; lia).
  assert (Ehead : exists rest, flat_array first more ++ post = ("[" :: rest)%char).
  { destruct first as [[b i] a]. eexists. reflexivity. }
  destruct Ehead as (rest & Ehead). rewrite Ehead in *.
  rewrite (findall_skips pre rest _ Hpre).
  cbn [findall_from]. rewrite Hmatch.
  destruct (_ <? _)%nat; eexists; (split; [reflexivity | exact Hgroup]).
Qed.

(** C3: let the cleaned response (wrapping fence and language tag
    removed, as [clean_response_fenced] shows for a fenced array) hold a
    well-formed JSON array [body] between the texts [pre] and [post].
    The parser returns exactly that array in each of three cases, one
    for each of its methods: the array is the whole cleaned response;
    or the cleaned response is not itself a JSON list, [pre] has no
    ['['] and [post] no [']']; or neither the cleaned response nor its
    part from the first ['['] to the last [']'] is a JSON list, no ['[']
    of [pre] is followed (after white space) by ['{'], and the array is
    a list of objects without ['}'] inside them. *)
Theorem parse_llm_response_recovers
    (response pre mid post : text) (items : list pyval) :
  let body := ("[" :: mid ++ ["]"])%char in
  let clean_text := pre ++ body ++ post in
  clean_response response = clean_text ->
  Json.loads body = Ret (VList items) ->
  (pre = [] /\ post = [])
  \/ (loads_list clean_text = Ret None
      /\ find "[" pre = None /\ rfind "]" post = None)
  \/ (loads_list clean_text = Ret None
      /\ (forall candidate, bracket_span clean_text = Some candidate ->
            loads_list candidate = Ret None)
      /\ opens_no_object pre = true
      /\ exists first more,
           body = flat_array first more
           /\ flat_element first = true
           /\ forallb flat_element more = true) ->
  _parse_llm_response response = Ret items.
Proof.
  intros body clean_text Hclean Hbody Hcases.
  assert (Hlist : loads_list body = Ret (Some items))
    by (unfold loads_list; rewrite Hbody; reflexivity).
  unfold _parse_llm_response. rewrite Hclean.
  destruct Hcases as [[-> ->]|[(Hwhole & Hpre & Hpost)
                              |(Hwhole & Hspan & Hpre & first & more
                                & Eflat & Hfirst & Hmore)]].
  - unfold clean_text. rewrite app_nil_l, app_nil_r, Hlist. reflexivity.
  - rewrite Hwhole. cbn [mbind outcome_bind].
    unfold clean_text, body.
    rewrite (bracket_span_embedded pre mid post Hpre Hpost).
    fold body. rewrite Hlist. reflexivity.
  - rewrite Hwhole. cbn [mbind outcome_bind].
    assert (Hnone : match bracket_span clean_text with
                    | Some json_candidate => loads_list json_candidate
                    | None => Ret None
                    end = Ret None).
    { destruct (bracket_span clean_text) as [candidate|];
        [apply Hspan|]; reflexivity. }
    rewrite Hnone. cbn [mbind outcome_bind].
    destruct (findall_flat_array pre post first more Hpre Hfirst Hmore)
      as (caps & rest & Hall & Hgroup).
    unfold clean_text. rewrite Eflat, Hall. cbn [map first_list].
    rewrite Hgroup. cbn [default from_option id]. rewrite <- Eflat, Hlist.
    reflexivity.
Qed.

Lemma parse_llm_response_recovers_example :
  _parse_llm_response
    (lit "```json|See [1].|[{'title':'Intro','page':1,'level':1}, {'title':'Ch','page':3,'level':1}]|Done.|```")
  = Ret [VDict [(str "title", VStr (str "Intro"));
                (str "page", VInt 1); (str "level", VInt 1)];
         VDict [(str "title", VStr (str "Ch"));
                (str "page", VInt 3); (str "level", VInt 1)]].
Proof.
  apply (parse_llm_response_recovers _
           (lit "See [1].|")
           (lit "{'title':'Intro','page':1,'level':1}, {'title':'Ch','page':3,'level':1}")
           (lit "|Done."));
    [reflexivity | vm_compute; reflexivity |].
  right. right. split; [vm_compute; reflexivity|].
  split; [intros candidate E; vm_compute in E; injection E as <-;
          vm_compute; reflexivity|].
  split; [reflexivity|].
  exists ([], lit "'title':'Intro','page':1,'level':1", []),
         [(str " ", lit "'title':'Ch','page':3,'level':1", [])].
  split; [reflexivity | split; reflexivity].
Defined.

End ParserFacts.

(** ** User-supplied table of contents *)

Section ReaderFacts.
Context `{PyBuiltins}.

(** C9: malformed input does not surface as an error: for a text that
    is not valid JSON, and for valid JSON that is not an array,
    [set_user_toc_data] returns the empty list and leaves the stored
    table of contents as it was; it raises on no input. *)
Theorem set_user_toc_data_returns_empty
    (user_toc_data : option (list TocEntry)) (toc_json : text) :
  (forall e, Json.loads toc_json = Raise e ->
             set_user_toc_data user_toc_data toc_json
             = Ret (user_toc_data, []))
  /\ (forall v, Json.loads toc_json = Ret v ->
                (forall items, v <> VList items) ->
                set_user_toc_data user_toc_data toc_json
                = Ret (user_toc_data, []))
  /\ (forall e, set_user_toc_data user_toc_data toc_json <> Raise e).
Proof.
  unfold set_user_toc_data. split; [|split].
  - intros e ->. reflexivity.
  - intros v -> Hv. destruct v; try reflexivity. destruct (Hv xs eq_refl).
  - intros e. destruct (Json.loads toc_json) as [[| | | | |items|]|?|];
      try discriminate.
    destruct (convert_items items); discriminate.
Qed.

End ReaderFacts.

(** C9, as the specification states it: the text "{" is not valid JSON
    and the text "{'page': 1}" (with double quotes) is an object, not an
    array; both give the normal result [[]], not an error. *)
Lemma set_user_toc_data_no_error :
  Json.loads (str "{") = Raise JSONDecodeError
  /\ @set_user_toc_data integers_only None (str "{") = Ret (None, [])
  /\ Json.loads (lit "{'page': 1}") = Ret (VDict [(str "page", VInt 1)])
  /\ @set_user_toc_data integers_only None (lit "{'page': 1}")
     = Ret (None, []).
Proof. repeat split; vm_compute; reflexivity. Qed.

Lemma set_user_toc_data_returns_empty_example :
  @set_user_toc_data integers_only None (str "{") = Ret (None, [])
  /\ @set_user_toc_data integers_only None (lit "{'page': 1}")
     = Ret (None, []).
Proof.
  split.
  - apply (proj1 (@set_user_toc_data_returns_empty integers_only None
                    (str "{")) JSONDecodeError).
    vm_compute. reflexivity.
  - apply (proj1 (proj2 (@set_user_toc_data_returns_empty integers_only None
                           (lit "{'page': 1}")))
                 (VDict [(str "page", VInt 1)])).
    + vm_compute. reflexivity.
    + intros items. discriminate.
Defined.

(** ** Extraction orchestrator *)

Section OrchestratorFacts.
Context `{PyBuiltins}.
Variable world : World.

Lemma yields_ret {A : Type} (P : A -> Prop) (a : A) :
  P a -> yields P (mret a).
Proof. intros Ha st st' a' E. injection E as _ <-. exact Ha. Qed.

Lemma yields_bind_post {A B : Type} (Q : A -> Prop) (P : B -> Prop)
    (m : M A) (f : A -> M B) :
  yields Q m -> (forall a, Q a -> yields P (f a)) -> yields P (m ≫= f).
Proof.
  intros Hm Hf st st' b. unfold mbind, M_bind.
  destruct (m st) as [st1 [a|e|]] eqn:E; try discriminate.
  apply Hf. eapply Hm, E.
Qed.

Lemma yields_bind {A B : Type} (P : B -> Prop) (m : M A) (f : A -> M B) :
  (forall a, yields P (f a)) -> yields P (m ≫= f).
Proof.
  intros Hf. apply (yields_bind_post (fun _ => True)); [|auto].
  intros st st' a _. exact I.
Qed.

Lemma yields_try {A : Type} (P : A -> Prop) (m h : M A) :
  yields P m -> yields P h -> yields P (try_catch m h).
Proof.
  intros Hm Hh st st' a. unfold try_catch.
  destruct (m st) as [st1 [a1|e|]] eqn:E; try discriminate.
  - intros E'. injection E' as <- <-. eapply Hm, E.
  - apply Hh.
Qed.

Lemma yields_lift {A : Type} (P : A -> Prop) (o : outcome A) :
  (forall a, o = Ret a -> P a) -> yields P (lift o).
Proof. intros Ho st st' a E. injection E as _ E. apply Ho, E. Qed.







End OrchestratorFacts.


(** The image-assisted operation returns the same entry when the first
    answer it uses only has pages the document lacks and the later
    calls raise. *)
Lemma with_images_level_above_6 :
  let answers n :=
    if Nat.eqb n 1
    then Some (lit "[{'title':'Far','page':500,'level':1}]")
    else None in
  snd (@extract_toc_from_text_with_images integers_only
         {| chat_init := true;
            llm_invoke := fun n _ => answers n;
            have_pypdf := true;
            pdf_pages := Some [Some (str "1.2.3.4.5.6.7 Deep 5")];
            render := fun _ _ => [];
            model_name := str "gpt-3.5-turbo";
            page_header := fun n => str "=== " ++ str_of_int n ++ str " ===" |}
         (str "1.2.3.4.5.6.7 Deep 5") 1 1 0 fresh)
  = Ret [{| title := str "Deep"; page := IInt 5; level := 7 |}].
Proof. vm_compute. reflexivity. Qed.


(** * Further properties *)

(** ** Pattern fallback: the page offset *)

Section DedupMore.
Context {A K : Type} `{Countable K} (key : A -> K).


End DedupMore.

Lemma dedup_by_map {A B K K' : Type} `{Countable K} `{Countable K'}
    (key : A -> K) (key' : B -> K') (f : A -> B) (g : K -> K')
    (seen : gset K) (xs : list A) :
  Inj (=) (=) g -> (forall x, key' (f x) = g (key x)) ->
  dedup_by key' (set_map g seen) (map f xs) = map f (dedup_by key seen xs).
Proof.
  intros Hg Hkey. revert seen. induction xs as [|x xs IH]; intros seen; simpl.
  - reflexivity.
  - rewrite Hkey.
    destruct (decide (key x ∈ seen)) as [Hin|Hout];
      destruct (decide (g (key x) ∈ (set_map g seen : gset K'))) as [Hin'|Hout'].
    + apply IH.
    + exfalso. apply Hout'. apply elem_of_map. eauto.
    + exfalso. apply elem_of_map in Hin' as (k & Hk & Hin').
      apply Hg in Hk. subst k. contradiction.
    + simpl. f_equal. rewrite <- IH. f_equal.
      rewrite set_map_union_L, set_map_singleton_L. reflexivity.
Qed.

Lemma insert_by_map {A B : Type} (key : A -> Z) (key' : B -> Z) (f : A -> B)
    (x : A) (xs : list A) :
  (forall a b, (key' (f a) <=? key' (f b)) = (key a <=? key b)) ->
  insert_by key' (f x) (map f xs) = map f (insert_by key x xs).
Proof.
  intros Hcmp. induction xs as [|y xs IH]; simpl; [reflexivity|].
  rewrite Hcmp. destruct (key x <=? key y); simpl; [reflexivity|].
  rewrite IH. reflexivity.
Qed.

Lemma sort_by_map {A B : Type} (key : A -> Z) (key' : B -> Z) (f : A -> B)
    (xs : list A) :
  (forall a b, (key' (f a) <=? key' (f b)) = (key a <=? key b)) ->
  sort_by key' (map f xs) = map f (sort_by key xs).
Proof.
  intros Hcmp. induction xs as [|x xs IH]; simpl; [reflexivity|].
  rewrite IH. apply insert_by_map, Hcmp.
Qed.

Module SimpleMore.
Import Simple.

Lemma parse_line_shift (page_offset : Z) (line : text) :
  parse_line page_offset line
  = option_map (shift_page page_offset) (parse_line 0 line).
Proof.
  unfold parse_line.
  destruct (text_eqb (strip line) []); [reflexivity|].
  destruct (Re.re_match toc_line_pattern (strip line)) as [[rest caps]|];
    [|reflexivity].
  cbv zeta. destruct (max_str_digits <? _)%nat; [reflexivity|].
  simpl. unfold shift_page. simpl. rewrite Z.add_0_r. reflexivity.
Qed.

Lemma omap_parse_line_shift (page_offset : Z) (lines : list text) :
  omap (parse_line page_offset) lines
  = map (shift_page page_offset) (omap (parse_line 0) lines).
Proof.
  induction lines as [|line lines IH]; [reflexivity|].
  cbn [omap list_omap]. rewrite (parse_line_shift page_offset line).
  destruct (parse_line 0 line); simpl; rewrite IH; reflexivity.
Qed.

(** X1: the page offset only moves the pages: the result for an offset is
    the result for the offset 0 with every page moved by the offset, in
    the same order. *)
Theorem simple_parsing_offset (toc_text : text) (page_offset : Z) :
  _extract_toc_with_simple_parsing toc_text page_offset
  = map (shift_page page_offset) (_extract_toc_with_simple_parsing toc_text 0).
Proof.
  unfold _extract_toc_with_simple_parsing.
  rewrite (omap_parse_line_shift page_offset).
  destruct (omap (parse_line 0) (split_on newline toc_text)) as [|e0 rest];
    [reflexivity|].
  change (map (shift_page page_offset) (e0 :: rest))
    with (shift_page page_offset e0 :: map (shift_page page_offset) rest).
  cbv iota beta.
  change (shift_page page_offset e0 :: map (shift_page page_offset) rest)
    with (map (shift_page page_offset) (e0 :: rest)).
  rewrite <- (sort_by_map (fun x => int_val (page x))
                (fun x => int_val (page x)) (shift_page page_offset)).
  - f_equal.
    rewrite <- (dedup_by_map entry_key entry_key (shift_page page_offset)
                  (fun k => (k.1, k.2 + page_offset))).
    + rewrite set_map_empty. reflexivity.
    + intros [t1 p1] [t2 p2] E. simpl in E. injection E as -> E. f_equal. lia.
    + intros x. reflexivity.
  - intros a b. simpl.
    destruct (Z.leb_spec (int_val (page a)) (int_val (page b)));
      [apply Z.leb_le | apply Z.leb_gt]; lia.
Qed.

End SimpleMore.

(** ** Entry validator: titles, keys and order *)

Section ValidatorMore.
Context `{PyBuiltins}.


(** X3: the titles of the entries [validate_toc_data] returns are not
    empty and carry no white space at either end, and no two entries of
    the result have the same key [title:page]. *)
Theorem validate_titles_and_keys toc_data (max_pages : Z) out :
  validate_toc_data toc_data max_pages = Ret out ->
  Forall (fun e => title e <> [] /\ strip (title e) = title e) out
  /\ NoDup (map key_string out).
Proof.
  intros E. split.
  - apply validate_toc_data_valid in E.
    eapply Forall_impl; [exact E|]. intros e (_ & Hs & Hne & _). auto.
  - unfold validate_toc_data in E.
    destruct toc_data as [| | | | |items|];
      try (injection E as <-; constructor).
    destruct (validate_items items max_pages) as [es|?|]; simpl in E;
      try discriminate.
    injection E as <-. apply dedup_by_NoDup.
Qed.


End ValidatorMore.

Lemma validate_titles_and_keys_example :
  let a := {| title := str "A"; page := IInt 1; level := 1 |} in
  let b := {| title := str "B"; page := IInt (-1); level := 6 |} in
  Forall (fun e => title e <> [] /\ strip (title e) = title e) [a; b]
  /\ NoDup (map key_string [a; b]).
Proof.
  intros a b.
  apply (@validate_titles_and_keys integers_only
           (VList [VDict [(str "title", VStr (str " A "));
                          (str "page", VInt 1); (str "level", VInt 1)];
                   VDict [(str "title", VStr (str "  "));
                          (str "page", VInt 2); (str "level", VInt 1)];
                   VDict [(str "title", VStr (str "B"));
                          (str "page", VInt (-1)); (str "level", VInt 9)];
                   VDict [(str "title", VStr (str "A"));
                          (str "page", VInt 1); (str "level", VInt 2)]])
           10).
  vm_compute. reflexivity.
Defined.


(** ** Response parser: fenced arrays and prose *)

Module JsonShape.
Import Json.

Lemma scanstring_raises (n : nat) : forall (s acc : text) (e : exn),
  (length s <= n)%nat -> scanstring s acc = Raise e -> e = JSONDecodeError.
Proof.
  induction n as [|n IH]; intros s acc e Hlen.
  - destruct s; [simpl; congruence | simpl in Hlen; lia].
  - destruct s as [|c s]; [simpl; congruence|].
    simpl in Hlen. cbn [scanstring].
    repeat match goal with
    | |- (if ?b then _ else _) = _ -> _ => destruct b
    | |- match ?x with _ => _ end = _ -> _ => destruct x; simpl in Hlen
    end;
    try congruence; try (apply IH; simpl; lia).
Qed.

Lemma scanstring_plain (s acc : text) :
  Forall (fun c => ascii_eqb c "\" = false) s -> scanstring s acc <> Beyond.
Proof.
  intros Hs. revert acc. induction Hs as [|c s Hc Hs IH]; intros acc;
    [discriminate|].
  cbn [scanstring]. rewrite Hc.
  destruct (ascii_eqb c dquote); [discriminate|].
  destruct (code c <? 32)%N; [discriminate | apply IH].
Qed.

Lemma scan_number_head (s : text) :
  starts_number s = false -> scan_number s = None.
Proof.
  destruct s as [|c s]; [reflexivity|]. cbn [starts_number].
  intros Hc. apply orb_false_iff in Hc as [Hd Hm].
  unfold scan_number. rewrite Hm.
  destruct (ascii_eqb c "0") eqn:E0.
  - apply ascii_eqb_eq in E0 as ->. discriminate.
  - rewrite Hd. reflexivity.
Qed.

Lemma is_json_ws_space (c : ascii) : is_json_ws c = true -> is_space c = true.
Proof.
  unfold is_json_ws, is_space. cbv zeta. intros Hws.
  rewrite !orb_true_iff, !N.eqb_eq in Hws.
  destruct Hws as [[[E|E]|E]|E]; rewrite E; reflexivity.
Qed.

Lemma skip_ws_stripped (t : text) : skip_ws (strip t) = strip t.
Proof.
  destruct (strip t) as [|c r] eqn:E; [reflexivity|].
  apply strip_head in E. cbn [skip_ws].
  destruct (is_json_ws c) eqn:Ews; [|reflexivity].
  apply is_json_ws_space in Ews. congruence.
Qed.

(** A text without brackets, braces and backslashes that does not
    start like a number decodes to no list, and decoding it raises
    nothing but [JSONDecodeError]. *)
Lemma loads_prose (s : text) :
  Forall (fun c => ascii_eqb c "[" = false /\ ascii_eqb c "{" = false
                   /\ ascii_eqb c "\" = false) s ->
  starts_number (skip_ws s) = false ->
  Parser.loads_list s = Ret None.
Proof.
  intros Hs Hnum. unfold Parser.loads_list, loads.
  assert (Hs' : Forall (fun c => ascii_eqb c "[" = false /\ ascii_eqb c "{" = false
                   /\ ascii_eqb c "\" = false) (skip_ws s)).
  { clear Hnum. induction Hs as [|x s Hx Hs IH]; simpl; [constructor|].
    destruct (is_json_ws x); [exact IH | constructor; assumption]. }
  destruct (skip_ws s) as [|c s'] eqn:Es; [reflexivity|].
  cbn [scan_once]. inversion Hs' as [|? ? (Hb & Hc & Hq) Hrest]. subst.
  rewrite Hb, Hc.
  destruct (ascii_eqb c dquote).
  - assert (Hplain : Forall (fun c => ascii_eqb c "\" = false) s').
    { eapply Forall_impl; [exact Hrest|]. intros x (_ & _ & Hx). exact Hx. }
    pose proof (scanstring_plain s' [] Hplain) as Hstr.
    destruct (scanstring s' []) as [[t r]|e|] eqn:E; simpl;
      [| |contradiction].
    + destruct (skip_ws r); reflexivity.
    + apply (scanstring_raises _ _ _ _ (le_n _)) in E as ->. reflexivity.
  - rewrite (scan_number_head _ Hnum).
    repeat match goal with
    | |- context [match after ?w ?t with _ => _ end] => destruct (after w t)
    end; simpl;
    try reflexivity;
    match goal with
    | |- context [skip_ws ?r] => destruct (skip_ws r); reflexivity
    end.
Qed.

End JsonShape.

Module ParserMore.
Import Json Re ReFacts Parser ParserFacts JsonShape.

Lemma find_none (c : ascii) (s : text) :
  find c s = None <-> Forall (fun x => ascii_eqb x c = false) s.
Proof.
  induction s as [|x s IH]; simpl.
  - split; [constructor | reflexivity].
  - destruct (ascii_eqb x c) eqn:E.
    + split; [discriminate|]. intros Hall. inversion Hall. congruence.
    + destruct (find c s); simpl.
      * split; [discriminate|]. intros Hall. inversion Hall as [|? ? _ Hs].
        apply IH in Hs. discriminate.
      * split; [|reflexivity]. intros _. constructor; [exact E|].
        apply IH. reflexivity.
Qed.

Lemma findall_no_bracket (fuel : nat) (s : text) :
  Forall (fun x => ascii_eqb x "[" = false) s ->
  findall_from fuel json_pattern s = [].
Proof.
  revert s. induction fuel as [|f IH]; intros s Hs; [reflexivity|].
  cbn [findall_from]. rewrite json_pattern_needs_bracket.
  - destruct s as [|c s']; [reflexivity|]. apply IH. inversion Hs. assumption.
  - destruct Hs; [reflexivity | assumption].
Qed.

Lemma clean_response_stripped (response_text : text) :
  exists t, clean_response response_text = strip t.
Proof.
  unfold clean_response.
  repeat match goal with
  | |- context [if ?b then _ else _] => destruct b
  end; eexists; reflexivity.
Qed.

(** X6: a code fence around a JSON array, with any language tag on the
    line of the opening fence, is parsed to that array. *)
Theorem parse_llm_response_fenced (tag mid : text) (items : list pyval) :
  has_newline tag = false ->
  Json.loads ("[" :: mid ++ ["]"])%char = Ret (VList items) ->
  _parse_llm_response
    (fence ++ tag ++ [newline] ++ ("[" :: mid ++ ["]"])%char
       ++ [newline] ++ fence)
  = Ret items.
Proof.
  intros Htag Hbody. unfold _parse_llm_response.
  rewrite (clean_response_fenced tag mid Htag).
  unfold loads_list. rewrite Hbody. reflexivity.
Qed.

Lemma parse_llm_response_fenced_example :
  _parse_llm_response
    (lit "```json|[{'title':'Intro',|  'page':1,'level':1}]|```")
  = Ret [VDict [(str "title", VStr (str "Intro"));
                (str "page", VInt 1); (str "level", VInt 1)]].
Proof.
  apply (parse_llm_response_fenced (str "json")
           (lit "{'title':'Intro',|  'page':1,'level':1}"));
    vm_compute; reflexivity.
Defined.

(** X7: a response in prose holds no list: when the cleaned response has
    no bracket, no brace and no backslash and does not start with a
    digit or a minus sign, the three parsing methods find nothing and
    the parser returns the empty list. *)
Theorem parse_llm_response_prose (response_text : text) :
  Forall (fun c => ascii_eqb c "[" = false /\ ascii_eqb c "{" = false
                   /\ ascii_eqb c "\" = false)
         (clean_response response_text) ->
  starts_number (clean_response response_text) = false ->
  _parse_llm_response response_text = Ret [].
Proof.
  intros Hprose Hnum. unfold _parse_llm_response.
  destruct (clean_response_stripped response_text) as (t & Estrip).
  set (clean_text := clean_response response_text) in *.
  assert (Hnone : find "[" clean_text = None).
  { apply find_none. eapply Forall_impl; [exact Hprose|].
    intros c (Hc & _). exact Hc. }
  assert (H1 : loads_list clean_text = Ret None).
  { apply loads_prose; [exact Hprose|].
    rewrite Estrip, skip_ws_stripped, <- Estrip. exact Hnum. }
  rewrite H1. simpl.
  unfold bracket_span. rewrite Hnone. simpl.
  unfold findall. rewrite findall_no_bracket; [reflexivity|].
  apply find_none. exact Hnone.
Qed.

Lemma parse_llm_response_prose_example :
  _parse_llm_response (str "There is no table of contents.") = Ret [].
Proof.
  apply parse_llm_response_prose; [|reflexivity]. vm_compute.
  repeat (constructor; [repeat split|]). constructor.
Defined.

End ParserMore.

(** ** Outline builder: the outline is a forest *)

Module WriterMore.
Import Writer WriterFacts.

Section BuilderMore.
Variable pypdf_raises : text -> Z -> bool.

Lemma search_down_in (parent_map : gmap Z Z) (n : nat) (id : Z) :
  search_down parent_map n = Some id -> exists l, parent_map !! l = Some id.
Proof.
  induction n as [|n IH]; [discriminate|]. cbn [search_down].
  destruct (parent_map !! Z.of_nat (S n)) as [id'|] eqn:E; [|exact IH].
  intros E'. injection E' as <-. eauto.
Qed.

Lemma find_parent_in (parent_map : gmap Z Z) (level id : Z) :
  find_parent parent_map level = Some id ->
  exists l, parent_map !! l = Some id.
Proof.
  unfold find_parent. destruct (1 <? level); [|discriminate].
  apply search_down_in.
Qed.

(** The invariant of the loop: the outline is the old one followed by
    the items created so far, whose parents are created items before
    them, and the map holds ids of created items only. *)
Lemma step_parents_within (old created : list OutlineItem) (w : PdfWriter)
    parent_map (e : TocEntry) :
  outline w = old ++ created ->
  ids_between (length old) w parent_map ->
  parents_within (length old) created ->
  let (w', parent_map') := bookmark_step pypdf_raises (w, parent_map) e in
  exists created',
    outline w' = old ++ created'
    /\ ids_between (length old) w' parent_map'
    /\ parents_within (length old) created'.
Proof.
  intros Ho Hids Hpw.
  destruct (becomes_node pypdf_raises (num_pages w) e) eqn:Hn.
  - rewrite (step_node _ _ _ _ Hn).
    exists (created ++ [{| o_title := title e; o_page := int_val (page e);
                          o_parent := find_parent parent_map (level e) |}]).
    unfold ids_between, parents_within in *. cbn [outline].
    split; [rewrite Ho, <- app_assoc; reflexivity|]. split.
    + intros l id. rewrite length_app. cbn [length].
      destruct (decide (level e = l)) as [->|Hne].
      * rewrite lookup_insert_eq. intros E. injection E as <-.
        rewrite Ho, length_app. lia.
      * rewrite lookup_insert_ne by exact Hne. intros E.
        apply Hids in E. lia.
    + intros i it p Hi Hp.
      destruct (decide (i < length created)%nat) as [Hlt|Hge].
      * rewrite lookup_app_l in Hi by exact Hlt. eapply Hpw; eassumption.
      * rewrite lookup_app_r in Hi by lia.
        destruct (i - length created)%nat as [|k] eqn:Ek;
          [|destruct k; discriminate].
        injection Hi as <-. simpl in Hp.
        apply find_parent_in in Hp as [l Hl]. apply Hids in Hl.
        rewrite Ho, length_app in Hl. lia.
  - rewrite (step_skip _ _ _ _ Hn). exists created. auto.
Qed.

Lemma fold_parents_within (items : list TocEntry)
    (old created : list OutlineItem) (w : PdfWriter) parent_map :
  outline w = old ++ created ->
  ids_between (length old) w parent_map ->
  parents_within (length old) created ->
  exists created',
    outline (fst (fold_left (bookmark_step pypdf_raises) items
                    (w, parent_map)))
    = old ++ created'
    /\ parents_within (length old) created'.
Proof.
  revert created w parent_map. induction items as [|e items IH];
    intros created w parent_map Ho Hids Hpw; [exists created; auto|].
  cbn [fold_left].
  pose proof (step_parents_within old created w parent_map e Ho Hids Hpw)
    as Hs.
  destruct (bookmark_step pypdf_raises (w, parent_map) e) as [w1 pm1].
  destruct Hs as (created1 & Ho1 & Hids1 & Hpw1).
  eapply IH; eassumption.
Qed.

End BuilderMore.

(** X8: the items [create_bookmarks_from_toc] creates form a forest in
    creation order: they are added after the items the writer held, and
    the parent of every one of them is an item created before it in the
    same call, whatever the levels of the entries are. On a writer
    whose outline was empty, as after [load()], this is the whole
    outline. *)
Theorem created_outline_is_forest
    (pypdf_raises : text -> Z -> bool) (self : option PdfWriter)
    (toc_data : list TocEntry) (w' : PdfWriter) :
  create_bookmarks_from_toc pypdf_raises self toc_data = (true, Some w') ->
  exists w created,
    self = Some w
    /\ outline w' = outline w ++ created
    /\ parents_within (length (outline w)) created
    /\ (outline w = [] -> parents_first (outline w')).
Proof.
  unfold create_bookmarks_from_toc. destruct self as [w|]; [|discriminate].
  set (w0 := {| num_pages := num_pages w; outline := outline w;
                outline_root := Some [] |}).
  destruct (fold_parents_within pypdf_raises toc_data (outline w) [] w0 ∅)
    as (created & Ho & Hpw).
  - cbn [w0 outline]. rewrite app_nil_r. reflexivity.
  - intros l id E. rewrite lookup_empty in E. discriminate.
  - intros i it p E. discriminate.
  - destruct (fold_left (bookmark_step pypdf_raises) toc_data (w0, ∅))
      as [w1 pm1].
    intros E. injection E as <-. cbn [fst] in Ho.
    exists w, created. split; [reflexivity|]. split; [exact Ho|].
    split; [exact Hpw|]. intros Hfresh. rewrite Ho, Hfresh. cbn [app].
    rewrite Hfresh in Hpw. intros i it p Hi Hp.
    specialize (Hpw i it p Hi Hp). simpl in Hpw. lia.
Qed.

Lemma created_outline_is_forest_example :
  let loaded := {| num_pages := 5; outline := []; outline_root := None |} in
  let created := [item "A" 0 None; item "B" 2 (Some 0);
                  item "C" 3 (Some 1)] in
  exists w created',
    Some loaded = Some w
    /\ created = outline w ++ created'
    /\ parents_within (length (outline w)) created'
    /\ (outline w = [] -> parents_first created).
Proof.
  intros loaded created.
  exact (created_outline_is_forest (fun _ _ => false) (Some loaded)
           [entry "A" 0 1; entry "B" 2 3; entry "gone" 7 1; entry "C" 3 5]
           {| num_pages := 5; outline := created; outline_root := Some [] |}
           eq_refl).
Defined.

End WriterMore.

(** ** Page texts *)




(** ** Worker thread *)

Section WorkerFacts.
Context `{PyBuiltins}.

Lemma validate_toc_data_keys toc_data (max_pages : Z) out :
  validate_toc_data toc_data max_pages = Ret out ->
  NoDup (map key_string out).
Proof.
  unfold validate_toc_data.
  destruct toc_data as [| | | | |items|];
    try (intros E; injection E as <-; constructor).
  destruct (validate_items items max_pages) as [es|?|]; simpl;
    try discriminate.
  intros E. injection E as <-. apply dedup_by_NoDup.
Qed.

(** X11: whatever way the extraction took (images, page texts, the
    pattern fallback), the table of contents the worker emits with
    [toc_extracted] has been validated against the page count of the
    file: every entry has a page that is -1 or in 1 .. num_pages, a
    stripped title that is not empty and a level in 1 .. 6, and no two
    entries have the same key. *)
Theorem extract_toc_emits_valid (world : World) (start_page end_page : Z)
    (st st' : Extractor) (toc_data : list TocEntry) :
  _extract_toc world start_page end_page st = (st', Ret (Done toc_data)) ->
  Forall (valid_entry (get_num_pages (pdf_pages world))) toc_data
  /\ NoDup (map key_string toc_data).
Proof.
  revert st st'.
  assert (Hy : yields (fun r => forall toc, r = Done toc ->
                Forall (valid_entry (get_num_pages (pdf_pages world))) toc
                /\ NoDup (map key_string toc))
               (_extract_toc world start_page end_page)).
  { unfold _extract_toc.
    destruct (pdf_pages world) as [pages|];
      [|apply yields_ret; discriminate].
    apply yields_bind. intros toc_text.
    destruct (text_eqb toc_text []); [apply yields_ret; discriminate|].
    apply yields_bind. intros _. apply yields_bind. intros ready.
    apply yields_bind. intros [[|e es]|];
      try (apply yields_ret; discriminate).
    apply (yields_bind_post
             (fun out => Forall (valid_entry (Z.of_nat (length pages))) out
                         /\ NoDup (map key_string out))).
    - apply yields_lift. intros out E. split.
      + eapply validate_toc_data_valid, E.
      + eapply validate_toc_data_keys, E.
    - intros out Hout. apply yields_ret. intros toc E.
      injection E as <-. exact Hout. }
  intros st st' E. exact (Hy st st' _ E toc_data eq_refl).
Qed.

End WorkerFacts.

Lemma extract_toc_emits_valid_example :
  let a := {| title := str "A"; page := IInt 1; level := 6 |} in
  Forall (valid_entry 1) [a] /\ NoDup (map key_string [a]).
Proof.
  intros a.
  apply (@extract_toc_emits_valid integers_only
           (deep_world
              (Some (lit "[{'title':'A','page':1,'level':9},{'title':'B','page':7,'level':1}]")))
           1 1 fresh {| llm := true; calls := 1 |} [a]).
  vm_compute. reflexivity.
Defined.

Module ProcessFacts.
Import Writer WriterFacts.

Lemma adjusted_node (pypdf_raises : text -> Z -> bool) (n page_offset : Z)
    (item : TocEntry) :
  0 <= n ->
  becomes_node pypdf_raises n (adjusted_item page_offset item)
  = bookmarked pypdf_raises n page_offset item.
Proof.
  intros Hn. unfold becomes_node, bookmarked, adjusted_item.
  destruct (int_val (page item) =? -1) eqn:E.
  - apply Z.eqb_eq in E. rewrite E. simpl. reflexivity.
  - simpl.
    destruct (Z.ltb_spec (int_val (page item) + (page_offset - 1)) 0),
             (Z.leb_spec 0 (int_val (page item) + (page_offset - 1))),
             (Z.geb_spec (int_val (page item) + (page_offset - 1)) n),
             (Z.ltb_spec (int_val (page item) + (page_offset - 1)) n);
      try lia; reflexivity.
Qed.

Lemma adjusted_target (page_offset : Z) (item : TocEntry) :
  int_val (page item) <> -1 ->
  entry_target (adjusted_item page_offset item)
  = bookmark_target page_offset item.
Proof.
  intros Hp. unfold adjusted_item.
  destruct (Z.eqb_spec (int_val (page item)) (-1)); [contradiction|].
  reflexivity.
Qed.

Lemma process_pdf_targets (pypdf_raises : text -> Z -> bool)
    (pages : list (option text)) (toc_data : list TocEntry)
    (page_offset : Z) :
  exists w,
    create_bookmarks_from_toc pypdf_raises
      (Some {| num_pages := Z.of_nat (length pages); outline := [];
               outline_root := None |})
      (map (adjusted_item page_offset) toc_data) = (true, Some w)
    /\ map item_target (outline w)
       = map (bookmark_target page_offset)
           (List.filter (bookmarked pypdf_raises (Z.of_nat (length pages))
                           page_offset) toc_data).
Proof.
  unfold create_bookmarks_from_toc. cbn [num_pages outline].
  set (w0 := {| num_pages := Z.of_nat (length pages); outline := [];
                outline_root := Some [] |}).
  pose proof (fold_targets pypdf_raises
                (map (adjusted_item page_offset) toc_data) w0 ∅) as Hf.
  destruct (fold_left (bookmark_step pypdf_raises)
              (map (adjusted_item page_offset) toc_data) (w0, ∅))
    as [w1 pm1].
  exists w1. split; [reflexivity|].
  cbn [fst] in Hf. destruct Hf as [_ ->]. cbn [w0 outline map app num_pages].
  clear. induction toc_data as [|e es IH]; [reflexivity|].
  cbn [map]. rewrite filter_cons. cbn [List.filter].
  rewrite <- (adjusted_node pypdf_raises _ page_offset e) by lia.
  destruct (becomes_node pypdf_raises (Z.of_nat (length pages))
              (adjusted_item page_offset e)) eqn:En.
  - destruct (decide (true = true)) as [_|]; [|congruence].
    cbn [map]. rewrite IH. f_equal. apply adjusted_target.
    intros Hp. unfold becomes_node, adjusted_item in En.
    apply Z.eqb_eq in Hp. rewrite Hp in En.
    apply Z.eqb_eq in Hp. rewrite Hp in En. discriminate.
  - destruct (decide (false = true)) as [|_]; [congruence|]. exact IH.
Qed.

(** X12: the outline of the file [_process_pdf] saves holds, in the order
    of the table of contents, one item for every entry whose page is
    known and, moved by [page_offset - 1], lies in the file (and that
    pypdf accepts), at that 0-based page. An entry with the page -1
    never becomes a bookmark, whatever the offset. *)
Theorem process_pdf_outline (pypdf_raises : text -> Z -> bool)
    (input : option (list (option text))) (can_save : bool)
    (toc_data : list TocEntry) (page_offset : Z) (saved : PdfWriter) :
  _process_pdf pypdf_raises input can_save toc_data page_offset = Done saved ->
  map item_target (outline saved)
  = map (bookmark_target page_offset)
      (List.filter (bookmarked pypdf_raises (get_num_pages input) page_offset)
         toc_data)
  /\ forall item, item ∈ toc_data -> int_val (page item) = -1 ->
       bookmarked pypdf_raises (get_num_pages input) page_offset item = false.
Proof.
  unfold _process_pdf. cbv zeta. destruct input as [pages|]; [|discriminate].
  cbn [load].
  destruct (process_pdf_targets pypdf_raises pages toc_data page_offset)
    as (w & -> & Hw).
  destruct can_save; [|discriminate]. intros E. injection E as <-.
  split; [exact Hw|]. intros item _ Hp. unfold bookmarked. rewrite Hp.
  reflexivity.
Qed.

Lemma process_pdf_outline_example :
  let toc := [entry "A" 1 1; entry "B" (-1) 2; entry "C" 3 2] in
  map item_target [item "A" 2 None; item "C" 4 (Some 0)]
  = map (bookmark_target 2)
      (List.filter (bookmarked (fun _ _ => false) 5 2) toc)
  /\ forall item, item ∈ toc -> int_val (page item) = -1 ->
       bookmarked (fun _ _ => false) 5 2 item = false.
Proof.
  intros toc.
  exact (process_pdf_outline (fun _ _ => false)
           (Some [None; None; None; None; None]) true toc 2
           {| num_pages := 5;
              outline := [item "A" 2 None; item "C" 4 (Some 0)];
              outline_root := Some [] |}
           eq_refl).
Defined.

(** A list whose pages are -1 or in 1 .. num_pages loses no entry with a
    known page when it is processed with the offset 0. *)
Lemma process_pdf_in_range (pages : list (option text))
    (toc_data : list TocEntry) :
  Forall (fun item => out_of_range (int_val (page item))
                                   (Z.of_nat (length pages)) = false)
         toc_data ->
  bookmarks_all pages toc_data.
Proof.
  intros Hvalid. unfold bookmarks_all, _process_pdf. cbv zeta. cbn [load].
  destruct (process_pdf_targets (fun _ _ => false) pages toc_data 0)
    as (w & -> & Hw).
  exists w. split; [reflexivity|]. rewrite Hw. clear Hw.
  induction Hvalid as [|e es He Hes IH]; [reflexivity|].
  cbn [List.filter].
  assert (Hb : bookmarked (fun _ _ => false) (Z.of_nat (length pages)) 0 e
               = negb (int_val (page e) =? -1)).
  { unfold bookmarked, out_of_range in *.
    destruct (Z.eqb_spec (int_val (page e)) (-1)); [reflexivity|].
    simpl in *. apply orb_false_iff in He as [H1 H2].
    destruct (Z.leb_spec 0 (int_val (page e) + (0 - 1))),
             (Z.ltb_spec (int_val (page e) + (0 - 1))
                (Z.of_nat (length pages))); try reflexivity; lia. }
  rewrite Hb. destruct (negb (int_val (page e) =? -1)); [|exact IH].
  cbn [map]. rewrite IH. reflexivity.
Qed.

Lemma valid_toc_data_in_range (toc_data : list TocEntry) (max_pages : Z) :
  Forall (fun item => out_of_range (int_val (page item)) max_pages = false)
         (valid_toc_data toc_data max_pages).
Proof.
  unfold valid_toc_data. induction toc_data as [|e es IH]; [constructor|].
  cbn [List.filter].
  destruct (Z.eqb_spec (int_val (page e)) (-1)) as [Hp|Hp]; cbn [orb].
  - constructor; [|exact IH]. unfold out_of_range. rewrite Hp. reflexivity.
  - destruct (Z.geb_spec (int_val (page e)) 1);
      destruct (Z.leb_spec (int_val (page e)) max_pages); cbn [andb];
      try exact IH.
    constructor; [|exact IH]. unfold out_of_range.
    destruct (Z.ltb_spec (int_val (page e)) 1);
      destruct (Z.gtb_spec (int_val (page e)) max_pages); lia.
Qed.

Section ProcessValid.
Context `{PyBuiltins}.

(** X13: with the offset 0, which stands for a table of contents that
    already counts the pages of the file, no entry is lost between the
    table of contents shown to the user and the outline: for the list
    the filter of [import_json_toc] keeps, and for every list
    [validate_toc_data] returns for the page count of the file,
    [_process_pdf] succeeds (the file loads, pypdf accepts every item
    and the output can be written) and the outline has one item for
    each entry with a known page, at the 0-based page [page - 1]. *)
Theorem process_pdf_keeps_valid_entries (pages : list (option text)) :
  let num_pages := Z.of_nat (length pages) in
  (forall imported : list TocEntry,
     bookmarks_all pages (valid_toc_data imported num_pages))
  /\ (forall toc_data validated,
        validate_toc_data toc_data num_pages = Ret validated ->
        bookmarks_all pages validated).
Proof.
  intros n. split.
  - intros imported. apply process_pdf_in_range, valid_toc_data_in_range.
  - intros toc_data validated E. apply process_pdf_in_range.
    apply validate_toc_data_valid in E.
    eapply Forall_impl; [exact E|]. intros e (Hrange & _). exact Hrange.
Qed.

End ProcessValid.

Lemma process_pdf_keeps_valid_entries_example :
  bookmarks_all [None; None; None]
    [entry "A" 1 1; entry "B" (-1) 2; entry "C" 3 2].
Proof.
  apply (proj2 (@process_pdf_keeps_valid_entries integers_only
                  [None; None; None])
           (VList [VDict [(str "title", VStr (str "A"));
                          (str "page", VInt 1); (str "level", VInt 1)];
                   VDict [(str "title", VStr (str "far"));
                          (str "page", VInt 9); (str "level", VInt 1)];
                   VDict [(str "title", VStr (str "B"));
                          (str "page", VInt (-1)); (str "level", VInt 2)];
                   VDict [(str "title", VStr (str "C"));
                          (str "page", VInt 3); (str "level", VInt 2)]])).
  vm_compute. reflexivity.
Defined.

End ProcessFacts.

(** ** Calls to the model *)

Section CallsFacts.
Context `{PyBuiltins}.
Variable world : World.

Lemma calls_within_ret {A : Type} (a : A) : calls_within 0 (mret a : M A).
Proof. intros st. simpl. lia. Qed.

Lemma calls_within_lift {A : Type} (o : outcome A) : calls_within 0 (lift o).
Proof. intros st. simpl. lia. Qed.

Lemma calls_within_weaken {A : Type} (n n' : nat) (m : M A) :
  (n <= n')%nat -> calls_within n m -> calls_within n' m.
Proof. intros Hn Hm st. specialize (Hm st). lia. Qed.

Lemma calls_within_bind {A B : Type} (n1 n2 : nat) (m : M A) (f : A -> M B) :
  calls_within n1 m -> (forall a, calls_within n2 (f a)) ->
  calls_within (n1 + n2) (m ≫= f).
Proof.
  intros Hm Hf st. unfold mbind, M_bind. specialize (Hm st).
  destruct (m st) as [st1 [a|e|]]; cbn [fst] in *; try lia.
  specialize (Hf a st1). lia.
Qed.

Lemma calls_within_try {A : Type} (n : nat) (m h : M A) :
  calls_within n m -> calls_within 0 h -> calls_within n (try_catch m h).
Proof.
  intros Hm Hh st. unfold try_catch. specialize (Hm st).
  destruct (m st) as [st1 [a|e|]]; cbn [fst] in *; try lia.
  specialize (Hh st1). lia.
Qed.

Lemma calls_within_lift_bind {A B : Type} (n : nat) (o : outcome A)
    (f : A -> M B) :
  (forall a, o = Ret a -> calls_within n (f a)) ->
  calls_within n (lift o ≫= f).
Proof.
  intros Hf st. unfold mbind, M_bind, lift.
  destruct o as [a|e|]; cbn [fst]; try lia. apply (Hf a eq_refl).
Qed.

Lemma ensure_llm_calls : calls_within 0 (ensure_llm world).
Proof.
  intros st. unfold ensure_llm, initialize.
  destruct (llm st); [simpl; lia|].
  destruct (chat_init world); simpl; lia.
Qed.

Lemma invoke_calls p : calls_within 1 (invoke world p).
Proof. intros st. simpl. lia. Qed.

Lemma extract_toc_from_text_calls toc_text page_offset :
  calls_within 1 (extract_toc_from_text world toc_text page_offset).
Proof.
  unfold extract_toc_from_text.
  apply (calls_within_bind 0 1); [apply ensure_llm_calls|]. intros ready.
  destruct (negb ready);
    [eapply calls_within_weaken; [|apply calls_within_ret]; lia|].
  apply (calls_within_bind 1 0); [apply invoke_calls|]. intros content.
  apply (calls_within_bind 0 0); [apply calls_within_lift|].
  intros [|item items]; [apply calls_within_ret|].
  apply (calls_within_bind 0 0); [apply calls_within_lift|].
  intros toc_data. apply calls_within_lift.
Qed.

Lemma page_step_calls pages page_offset page_idx full :
  calls_within 1 (page_step world pages page_offset page_idx full).
Proof.
  unfold page_step.
  apply calls_within_try; [|apply calls_within_ret].
  apply (calls_within_bind 0 1); [apply calls_within_lift|]. intros t.
  destruct (text_eqb t []);
    [eapply calls_within_weaken; [|apply calls_within_ret]; lia|].
  apply calls_within_try; [|apply calls_within_ret].
  apply (calls_within_bind 1 0);
    [apply extract_toc_from_text_calls | intros; apply calls_within_ret].
Qed.

Lemma for_each_calls {A S : Type} (cost : A -> nat) (xs : list A)
    (body : A -> S -> M S) (s : S) :
  (forall x s, calls_within (cost x) (body x s)) ->
  calls_within (list_sum (map cost xs)) (for_each xs body s).
Proof.
  intros Hbody. revert s. induction xs as [|x xs IH]; intros s.
  - apply calls_within_ret.
  - cbn [for_each map list_sum].
    apply calls_within_bind; [apply Hbody | exact IH].
Qed.

Lemma list_sum_const {A : Type} (xs : list A) :
  list_sum (map (fun _ => 1%nat) xs) = length xs.
Proof. induction xs as [|x xs IH]; simpl; [reflexivity | rewrite IH; reflexivity]. Qed.

Lemma pdf_toc_pages_calls page_ranges page_offset :
  calls_within
    (list_sum (map (fun range =>
                      length (clipped (default [] (pdf_pages world)) range))
                   page_ranges))
    (extract_toc_from_pdf_toc_pages world page_ranges page_offset).
Proof.
  unfold extract_toc_from_pdf_toc_pages.
  destruct (negb (have_pypdf world)) eqn:Ep;
    [eapply calls_within_weaken; [|apply calls_within_ret]; lia|].
  apply calls_within_try; [|apply calls_within_ret].
  apply calls_within_lift_bind. intros pages Hopen.
  assert (Hpages : pdf_pages world = Some pages).
  { unfold open_pdf in Hopen. destruct (have_pypdf world); [|discriminate].
    destruct (pdf_pages world); [|discriminate]. congruence. }
  rewrite Hpages. cbn [default].
  rewrite <- (Nat.add_0_r (list_sum _)).
  apply calls_within_bind.
  - apply (for_each_calls (fun range => length (clipped pages range))).
    intros range full.
    rewrite <- (list_sum_const (clipped pages range)).
    apply for_each_calls. intros page_idx full'. apply page_step_calls.
  - intros [|e es].
    + destruct (fallback_texts world pages page_ranges);
        apply calls_within_ret.
    + apply (calls_within_bind 0 0); [apply calls_within_lift|].
      intros full. apply calls_within_ret.
Qed.

(** X16: the cost of an extraction in calls to the model:
    [extract_toc_from_text] makes at most one call, and the
    page-by-page extraction at most one call for each page of the
    ranges that lies in the file; a file that cannot be opened costs no
    call. *)
Theorem extraction_calls_bounded :
  (forall toc_text page_offset,
     calls_within 1 (extract_toc_from_text world toc_text page_offset))
  /\ (forall page_ranges page_offset,
        calls_within
          (list_sum (map (fun range =>
                            length (clipped (default [] (pdf_pages world))
                                            range))
                         page_ranges))
          (extract_toc_from_pdf_toc_pages world page_ranges page_offset)).
Proof.
  split; [exact extract_toc_from_text_calls | exact pdf_toc_pages_calls].
Qed.

End CallsFacts.

(** ** Orchestrator and converter *)

Section OrchestratorMore.
Context `{PyBuiltins}.
Variable world : World.

Lemma never_raises_ret {A : Type} (a : A) : never_raises (mret a : M A).
Proof. intros st e. discriminate. Qed.

Lemma never_raises_try {A : Type} (m h : M A) :
  never_raises h -> never_raises (try_catch m h).
Proof.
  intros Hh st e. unfold try_catch.
  destruct (m st) as [st1 [a|e1|]] eqn:E; try discriminate. apply Hh.
Qed.

Lemma never_raises_bind {A B : Type} (m : M A) (f : A -> M B) :
  never_raises m -> (forall a, never_raises (f a)) -> never_raises (m ≫= f).
Proof.
  intros Hm Hf st e. unfold mbind, M_bind.
  pose proof (Hm st) as Hst.
  destruct (m st) as [st1 [a|e1|]]; try discriminate.
  - apply Hf.
  - destruct (Hst e1). reflexivity.
Qed.

Lemma pdf_toc_pages_never_raises page_ranges page_offset :
  never_raises (extract_toc_from_pdf_toc_pages world page_ranges page_offset).
Proof.
  unfold extract_toc_from_pdf_toc_pages.
  destruct (negb (have_pypdf world)); [apply never_raises_ret|].
  apply never_raises_try, never_raises_ret.
Qed.

Lemma simple_parsing_unique_keys (toc_text : text) (page_offset : Z) :
  NoDup (map Simple.entry_key
           (Simple._extract_toc_with_simple_parsing toc_text page_offset)).
Proof.
  unfold Simple._extract_toc_with_simple_parsing.
  destruct (omap (Simple.parse_line page_offset) (split_on newline toc_text))
    as [|e0 rest]; simpl; [constructor|].
  rewrite (sort_by_perm (fun x => int_val (page x))).
  apply (dedup_by_NoDup Simple.entry_key ∅ (e0 :: rest)).
Qed.

(** X15: the list the page-by-page extraction returns holds no pair of a
    title and a page twice, on every path: the validated entries are
    deduplicated by that pair at the end, the pattern fallback
    deduplicates by it, and the other paths return the empty list. *)
Theorem pdf_toc_pages_unique (page_ranges : list (Z * Z)) (page_offset : Z)
    (st st' : Extractor) (toc_data : list TocEntry) :
  extract_toc_from_pdf_toc_pages world page_ranges page_offset st
  = (st', Ret toc_data) ->
  NoDup (map Simple.entry_key toc_data).
Proof.
  revert st st' toc_data.
  change (yields (fun toc_data => NoDup (map Simple.entry_key toc_data))
            (extract_toc_from_pdf_toc_pages world page_ranges page_offset)).
  unfold extract_toc_from_pdf_toc_pages.
  destruct (negb (have_pypdf world)); [apply yields_ret; constructor|].
  apply yields_try; [|apply yields_ret; constructor].
  apply yields_bind. intros pages. apply yields_bind. intros [|e es].
  - destruct (fallback_texts world pages page_ranges);
      apply yields_ret; [constructor | apply simple_parsing_unique_keys].
  - apply yields_bind. intros full. apply yields_ret.
    apply (dedup_by_NoDup Simple.entry_key ∅ full).
Qed.

End OrchestratorMore.

Lemma pdf_toc_pages_unique_example :
  NoDup (map Simple.entry_key
           [{| title := str "Deep"; page := IInt 5; level := 7 |}]).
Proof.
  apply (@pdf_toc_pages_unique integers_only (deep_world None) [(1, 1)] 0
           fresh {| llm := true; calls := 1 |}).
  vm_compute. reflexivity.
Defined.

(** ** Calls to the model of the image-assisted extraction *)

Section ImageCalls.
Context `{PyBuiltins}.
Variable world : World.

Lemma calls_bounded_ret {A : Type} (n n_raise : nat) (a : A) :
  calls_bounded n n_raise (mret a : M A).
Proof. intros st. simpl. lia. Qed.

Lemma calls_bounded_lift {A : Type} (n n_raise : nat) (o : outcome A) :
  calls_bounded n n_raise (lift o).
Proof. intros st. simpl. lia. Qed.

Lemma calls_bounded_within {A : Type} (n n_raise : nat) (m : M A) :
  calls_bounded n n_raise m -> (n_raise <= n)%nat -> calls_within n m.
Proof.
  intros Hm Hle st. destruct (Hm st) as [Hlo Hhi].
  split; [exact Hlo|]. destruct (snd (m st)); lia.
Qed.

Lemma calls_within_bounded {A : Type} (n : nat) (m : M A) :
  calls_within n m -> calls_bounded n n m.
Proof.
  intros Hm st. specialize (Hm st). split; [lia|].
  destruct (snd (m st)); lia.
Qed.

Lemma calls_within_never {A : Type} (n : nat) (m : M A) :
  calls_within n m -> never_raises m -> calls_bounded n 0 m.
Proof.
  intros Hm Hn st. specialize (Hm st). specialize (Hn st). split; [lia|].
  destruct (snd (m st)) as [a|e|]; try lia. destruct (Hn e). reflexivity.
Qed.

Lemma calls_bounded_bind {A B : Type} (a ar b br n nr : nat) (m : M A)
    (f : A -> M B) :
  calls_bounded a ar m -> (forall x, calls_bounded b br (f x)) ->
  (a + b <= n)%nat -> (ar <= nr)%nat -> (a + br <= nr)%nat ->
  calls_bounded n nr (m ≫= f).
Proof.
  intros Hm Hf Hn Hr1 Hr2 st. unfold mbind, M_bind.
  destruct (Hm st) as [Hlo Hhi].
  destruct (m st) as [st1 [x|e|]]; cbn [fst snd] in *; try lia.
  destruct (Hf x st1) as [Hlo' Hhi']. split; [lia|].
  destruct (snd (f x st1)); lia.
Qed.

Lemma calls_bounded_try {A : Type} (a ar b br n nr : nat) (m h : M A) :
  calls_bounded a ar m -> calls_bounded b br h ->
  (a <= n)%nat -> (ar + b <= n)%nat -> (ar + br <= nr)%nat ->
  calls_bounded n nr (try_catch m h).
Proof.
  intros Hm Hh Hn1 Hn2 Hr st. unfold try_catch.
  destruct (Hm st) as [Hlo Hhi].
  destruct (m st) as [st1 [x|e|]]; cbn [fst snd] in *; try lia.
  destruct (Hh st1) as [Hlo' Hhi']. split; [lia|].
  destruct (snd (h st1)); lia.
Qed.

Lemma invoke_bounded p : calls_bounded 1 1 (invoke world p).
Proof. apply calls_within_bounded, invoke_calls. Qed.

Lemma pdf_toc_pages_bounded page_ranges page_offset :
  calls_bounded (list_sum (map (range_cost world) page_ranges)) 0
    (extract_toc_from_pdf_toc_pages world page_ranges page_offset).
Proof.
  apply calls_within_never;
    [apply pdf_toc_pages_calls | apply pdf_toc_pages_never_raises].
Qed.

Lemma range_fallback_bounded range page_offset full :
  calls_bounded (range_cost world range) 0
    (range_fallback world range page_offset full).
Proof.
  unfold range_fallback. apply calls_within_never.
  - rewrite <- (Nat.add_0_r (range_cost world range)).
    apply calls_within_bind; [|intros; apply calls_within_ret].
    eapply calls_within_weaken; [|apply (pdf_toc_pages_calls world [range])].
    unfold range_cost. simpl. lia.
  - apply never_raises_bind;
      [apply pdf_toc_pages_never_raises | intros; apply never_raises_ret].
Qed.

Lemma range_step_calls toc_text page_offset range full :
  calls_within (1 + range_cost world range)
    (range_step world toc_text page_offset range full).
Proof.
  apply (calls_bounded_within _ 1); [|lia].
  unfold range_step. destruct range as [start_page end_page]. cbv zeta.
  eapply (calls_bounded_try (1 + range_cost world (start_page, end_page)) 1
            (range_cost world (start_page, end_page)) 0); try lia.
  - eapply (calls_bounded_bind 1 1 (range_cost world (start_page, end_page)) 0);
      try lia.
    + destruct (is_multimodal world).
      * eapply (calls_bounded_bind 1 1 0 0); try lia;
          [apply invoke_bounded|]. intros content.
        eapply (calls_bounded_bind 0 0 0 0); try lia;
          [apply calls_bounded_lift | intros; apply calls_bounded_ret].
      * eapply (calls_bounded_try 1 1 0 0); try lia;
          [|apply calls_bounded_ret].
        eapply (calls_bounded_bind 0 0 1 1); try lia;
          [apply calls_bounded_lift|]. intros pages.
        eapply (calls_bounded_bind 0 0 1 1); try lia;
          [apply calls_bounded_lift|]. intros texts.
        eapply (calls_bounded_bind 1 1 0 0); try lia;
          [apply invoke_bounded|]. intros content.
        eapply (calls_bounded_bind 0 0 0 0); try lia;
          [apply calls_bounded_lift | intros; apply calls_bounded_ret].
    + intros [toc_data|]; [|apply range_fallback_bounded].
      eapply (calls_bounded_bind 0 0 (range_cost world (start_page, end_page)) 0);
        try lia; [apply calls_bounded_lift|].
      intros [|item items];
        [apply range_fallback_bounded | apply calls_bounded_ret].
  - eapply (calls_bounded_try (range_cost world (start_page, end_page)) 0 0 0);
      try lia; [apply range_fallback_bounded | apply calls_bounded_ret].
Qed.

(** X19: the cost of the image-assisted extraction in calls to the model:
    at most one call for each range (with the images, or with the text
    of the range) and at most two calls for each page of the ranges
    that lies in the file (the page-by-page fallback of the range, and
    the page-by-page extraction when nothing was gathered or the
    validation failed). *)
Theorem image_extraction_calls_bounded toc_text page_ranges page_offset :
  calls_within
    (list_sum (map (fun range => (1 + range_cost world range)%nat) page_ranges)
     + list_sum (map (range_cost world) page_ranges))
    (_extract_toc_from_text_with_images_impl world toc_text page_ranges
       page_offset).
Proof.
  set (S := list_sum (map (fun range => (1 + range_cost world range)%nat)
                          page_ranges)).
  set (T := list_sum (map (range_cost world) page_ranges)).
  apply (calls_bounded_within _ S); [|lia].
  unfold _extract_toc_from_text_with_images_impl.
  eapply (calls_bounded_bind 0 0 (S + T) S); try lia.
  { apply calls_within_bounded, ensure_llm_calls. }
  intros ready. destruct (negb ready); [apply calls_bounded_ret|].
  eapply (calls_bounded_try (S + T) S T 0); try lia;
    [|apply pdf_toc_pages_bounded].
  destruct (pdf_pages world) as [converter_pages|] eqn:Hpages.
  - eapply (calls_bounded_bind S S T 0); try lia.
    + apply calls_within_bounded.
      apply (for_each_calls (fun range => (1 + range_cost world range)%nat)).
      intros range full. apply range_step_calls.
    + intros [|item items];
        [apply pdf_toc_pages_bounded | apply calls_bounded_lift].
  - intros st. destruct (pdf_toc_pages_bounded page_ranges page_offset st)
      as [Hlo Hhi].
    split; [exact Hlo|].
    destruct (snd (extract_toc_from_pdf_toc_pages world page_ranges
                     page_offset st)); lia.
Qed.

End ImageCalls.

Module ConverterFacts.
Import Converter.

Section RenderingFacts.
Variable b64encode : text -> text.

Lemma convert_page_keeps (render_page : Z -> Z -> option text)
    (self : PDFToImageConverter) (page_num dpi : Z) :
  let self' := fst (convert_page_to_image render_page self page_num dpi) in
  loaded self' = loaded self /\ num_pages self' = num_pages self
  /\ forall key img, _image_cache self !! key = Some img ->
                     _image_cache self' !! key = Some img.
Proof.
  unfold convert_page_to_image.
  destruct (negb (loaded self) || (page_num <? 0)
            || (page_num >=? num_pages self)); [simpl; auto|].
  destruct (_image_cache self !! (page_num, dpi)) eqn:E; [simpl; auto|].
  destruct (render_page page_num dpi); [|simpl; auto].
  simpl. split; [reflexivity|]. split; [reflexivity|].
  intros key img Hk. rewrite lookup_insert_ne; [exact Hk|].
  intros <-. congruence.
Qed.

Lemma convert_page_cached (render_page : Z -> Z -> option text)
    (self self' : PDFToImageConverter) (page_num dpi : Z) (img : text) :
  convert_page_to_image render_page self page_num dpi = (self', Some img) ->
  loaded self' = true /\ 0 <= page_num < num_pages self'
  /\ _image_cache self' !! (page_num, dpi) = Some img.
Proof.
  unfold convert_page_to_image.
  destruct (loaded self) eqn:El; [|discriminate].
  destruct (Z.ltb_spec page_num 0); [discriminate|].
  destruct (Z.geb_spec page_num (num_pages self)); [discriminate|].
  cbn [negb orb].
  destruct (_image_cache self !! (page_num, dpi)) eqn:E.
  - intros E'. injection E' as <- <-. auto with lia.
  - destruct (render_page page_num dpi); [|discriminate].
    intros E'. injection E' as <- <-. simpl.
    rewrite lookup_insert_eq. auto with lia.
Qed.

(** X17: a page is rendered once for a resolution: after
    [convert_page_to_image] has returned the image of a page, every
    later call for the same page and resolution returns the same bytes
    from the cache and leaves the converter as it is, whatever the
    renderer would give then and whatever was converted in between. *)
Theorem convert_page_to_image_cached
    (render_page render_later : Z -> Z -> option text)
    (self self' : PDFToImageConverter) (page_num dpi : Z) (img : text)
    (requests : list ((Z -> Z -> option text) * Z * Z)) :
  convert_page_to_image render_page self page_num dpi = (self', Some img) ->
  let later := after_requests self' requests in
  convert_page_to_image render_later later page_num dpi = (later, Some img).
Proof.
  intros E later.
  apply convert_page_cached in E as (Hl & Hp & Hc).
  assert (Hlater : loaded later = true /\ num_pages later = num_pages self'
                   /\ _image_cache later !! (page_num, dpi) = Some img).
  { subst later. clear -Hl Hc. revert self' Hl Hc.
    induction requests as [|[[r p] d] requests IH]; intros self' Hl Hc;
      [auto|].
    unfold after_requests. cbn [fold_left].
    pose proof (convert_page_keeps r self' p d) as (Kl & Kn & Kc).
    fold (after_requests (fst (convert_page_to_image r self' p d)) requests).
    destruct (IH (fst (convert_page_to_image r self' p d)))
      as (Il & In' & Ic); [congruence | apply Kc, Hc |].
    split; [exact Il|]. split; [congruence | exact Ic]. }
  destruct Hlater as (Ll & Ln & Lc).
  unfold convert_page_to_image. rewrite Ll, Lc. cbn [negb orb].
  destruct (Z.ltb_spec page_num 0); [lia|].
  destruct (Z.geb_spec page_num (num_pages later)); [lia|]. reflexivity.
Qed.

Lemma page_to_base64_numbers (render_page : Z -> Z -> option text) (dpi : Z)
    (st : PDFToImageConverter * list (Z * text)) (page_num : Z) :
  let st' := page_to_base64 render_page b64encode dpi st page_num in
  num_pages (fst st') = num_pages (fst st)
  /\ exists more, snd st' = snd st ++ more
       /\ Forall (fun r => r.1 = page_num + 1
                           /\ 0 <= page_num < num_pages (fst st)) more.
Proof.
  destruct st as [self result]. unfold page_to_base64.
  pose proof (convert_page_keeps render_page self page_num dpi) as (_ & Kn & _).
  destruct (convert_page_to_image render_page self page_num dpi)
    as [self' [[|b bs]|]] eqn:E; cbn [fst snd] in *.
  - split; [exact Kn|]. exists []. rewrite app_nil_r. auto.
  - split; [exact Kn|]. eexists. split; [reflexivity|].
    apply convert_page_cached in E as (_ & Hp & _).
    constructor; [|constructor]. simpl. split; [reflexivity | lia].
  - split; [exact Kn|]. exists []. rewrite app_nil_r. auto.
Qed.

Lemma pages_to_base64_numbers (render_page : Z -> Z -> option text) (dpi : Z)
    (page_nums : list Z) (st : PDFToImageConverter * list (Z * text)) :
  let st' := fold_left (page_to_base64 render_page b64encode dpi)
                       page_nums st in
  num_pages (fst st') = num_pages (fst st)
  /\ exists more, snd st' = snd st ++ more
       /\ Forall (fun r => 1 <= r.1 <= num_pages (fst st)
                           /\ r.1 - 1 ∈ page_nums) more.
Proof.
  revert st. induction page_nums as [|p ps IH]; intros st; cbn [fold_left].
  - split; [reflexivity|]. exists []. rewrite app_nil_r. auto.
  - pose proof (page_to_base64_numbers render_page dpi st p)
      as (Hn & m1 & Hm1 & Hf1).
    destruct (IH (page_to_base64 render_page b64encode dpi st p))
      as (Hn2 & m2 & Hm2 & Hf2).
    cbv zeta. split; [congruence|]. exists (m1 ++ m2). split.
    + rewrite Hm2, Hm1, app_assoc. reflexivity.
    + apply Forall_app. split.
      * eapply Forall_impl; [exact Hf1|]. intros r [Hr Hp]. simpl.
        split; [lia|]. rewrite Hr. replace (p + 1 - 1) with p by lia. left.
      * eapply Forall_impl; [exact Hf2|]. intros r [Hr Hp]. simpl in *.
        split; [rewrite <- Hn; exact Hr | right; exact Hp].
Qed.

(** X18: every image [convert_pages_to_base64] returns carries the 1-based
    number of a page of the file, and that page lies in one of the
    requested 0-based ranges; ranges reaching outside the file are
    clipped. *)
Theorem convert_pages_to_base64_numbers
    (render_page : Z -> Z -> option text) (self : PDFToImageConverter)
    (page_ranges : list (Z * Z)) (dpi : Z) :
  Forall (fun r => 1 <= r.1 <= num_pages self
                   /\ exists range, range ∈ page_ranges
                        /\ range.1 <= r.1 - 1 <= range.2)
         (snd (convert_pages_to_base64 render_page b64encode self
                 page_ranges dpi)).
Proof.
  unfold convert_pages_to_base64.
  assert (Hgen : forall st,
    let st' := fold_left (range_to_base64 render_page b64encode dpi)
                         page_ranges st in
    num_pages (fst st') = num_pages (fst st)
    /\ exists more, snd st' = snd st ++ more
         /\ Forall (fun r => 1 <= r.1 <= num_pages (fst st)
                             /\ exists range, range ∈ page_ranges
                                  /\ range.1 <= r.1 - 1 <= range.2) more).
  { induction page_ranges as [|[s e] ranges IH]; intros st; cbn [fold_left].
    - split; [reflexivity|]. exists []. rewrite app_nil_r. auto.
    - assert (Hstep :
        let st1 := range_to_base64 render_page b64encode dpi st (s, e) in
        num_pages (fst st1) = num_pages (fst st)
        /\ exists more, snd st1 = snd st ++ more
             /\ Forall (fun r => 1 <= r.1 <= num_pages (fst st)
                                 /\ s <= r.1 - 1 <= e) more).
      { unfold range_to_base64.
        destruct (Z.max 0 s >? Z.min (num_pages (fst st) - 1) e) eqn:Eg.
        - split; [reflexivity|]. exists []. rewrite app_nil_r. auto.
        - destruct (pages_to_base64_numbers render_page dpi
                      (seqZ (Z.max 0 s)
                         (Z.min (num_pages (fst st) - 1) e + 1 - Z.max 0 s))
                      st) as (Hn & more & Hm & Hf).
          split; [exact Hn|]. exists more. split; [exact Hm|].
          eapply Forall_impl; [exact Hf|]. intros r [Hr Hin]. simpl in *.
          split; [exact Hr|]. apply elem_of_seqZ in Hin. lia. }
      destruct Hstep as (Hn1 & m1 & Hm1 & Hf1).
      destruct (IH (range_to_base64 render_page b64encode dpi st (s, e)))
        as (Hn2 & m2 & Hm2 & Hf2).
      cbv zeta. split; [congruence|]. exists (m1 ++ m2). split.
      + rewrite Hm2, Hm1, app_assoc. reflexivity.
      + apply Forall_app. split.
        * eapply Forall_impl; [exact Hf1|]. intros r [Hr Hin]. simpl in *.
          split; [exact Hr|]. exists (s, e). split; [left | exact Hin].
        * eapply Forall_impl; [exact Hf2|].
          intros r (Hr & range & Hin & Hrange). simpl in *.
          split; [rewrite <- Hn1; exact Hr|].
          exists range. split; [right; exact Hin | exact Hrange]. }
  destruct (Hgen (self, [])) as (_ & more & -> & Hf). exact Hf.
Qed.

End RenderingFacts.

Lemma convert_page_to_image_cached_example :
  let self := {| loaded := true; num_pages := 3; _image_cache := ∅ |} in
  let self' := {| loaded := true; num_pages := 3;
                  _image_cache := {[ (1, 300) := str "png" ]} |} in
  let later := after_requests self'
                 [(fun _ _ => Some (str "other"), 2, 300)] in
  convert_page_to_image (fun _ _ => None) later 1 300
  = (later, Some (str "png")).
Proof.
  intros self self'.
  apply (convert_page_to_image_cached (fun _ _ => Some (str "png"))
           (fun _ _ => None) self self' 1 300 (str "png")
           [(fun _ _ => Some (str "other"), 2, 300)]).
  vm_compute. reflexivity.
Defined.

End ConverterFacts.
